(** * cloudflare-dns-sync: a shallow embedding of [main.go]

    The program looks up the caller's public IPv4 and IPv6 addresses, lists
    the DNS records of a Cloudflare zone and patches every configured record
    whose content differs from the address of its type.

    Go strings are byte strings ([string]); Go's [(value, error)] results are
    pairs whose error component is an [option] ([None] is [nil]); pointers
    that may be [nil] are options.  The network, the JSON codec and
    [strings.TrimSpace] live outside the repository and are gathered in a
    [World]; everything the program itself does is written out below. *)

From Stdlib Require Import ZArith String Ascii.
From stdpp Require Import base option list strings gmap.

(** ** Constants *)

Definition A : string := "A".
Definition AAAA : string := "AAAA".
Definition CLOUDFLARE : string := "https://api.cloudflare.com/client/v4/zones/".

Definition http_MethodGet : string := "GET".
Definition http_MethodPatch : string := "PATCH".
Definition http_StatusOK : Z := 200%Z.

(** The line feed written by [fmt.Println] and by the escape in the error
    text of [updateDnsRecord]. *)
Definition LF : string := String (ascii_of_nat 10) EmptyString.

(** ** Data *)

(** A Go [error], identified with the text of its [Error()] method. *)
Definition error : Type := string.

Definition errors_New (text : string) : error := text.

(** [time.Time], kept as an opaque instant. *)
Definition time_Time : Type := Z.

Module Meta.
Record t : Type := mk {
  AutoAdded : bool;
  ManagedByApps : bool;
  ManagedByArgoTunnel : bool;
  Source : string
}.
End Meta.

Module DnsRecordResponseEntry.
Record t : Type := mk {
  Id : string;
  ZoneId : string;
  ZoneName : string;
  Name : string;
  Type_ : string;
  Content : string;
  Proxiable : bool;
  Proxied : bool;
  Ttl : Z;
  Locked : bool;
  Meta : Meta.t;
  CreatedOn : time_Time;
  ModifiedOn : time_Time
}.
End DnsRecordResponseEntry.

Module DnsRecordsResponse.
Record t : Type := mk { Result : list DnsRecordResponseEntry.t }.
End DnsRecordsResponse.

Module DnsRecord.
Record t : Type := mk {
  Id : string;
  ZoneId : string;
  Type_ : string;
  Name : string;
  Content : string
}.
End DnsRecord.

(** ** HTTP values *)

Record Request : Type := mkRequest {
  Method : string;
  URL : string;
  Header : gmap string (list string);
  RequestBody : option string
}.

(** A response body is what the two calls made on it yield:
    [ioutil.ReadAll] (bytes read so far and an error) and [Close]. *)
Record ReadCloser : Type := mkReadCloser {
  ReadAll : string * option error;
  Close : option error
}.

Record Response : Type := mkResponse {
  Status : string;
  StatusCode : Z;
  Body : ReadCloser
}.

(** ** The world outside the repository *)

Record World : Type := mkWorld {
  (** the error, if any, with which [http.NewRequest] rejects a method and URL *)
  NewRequest_error : string → string → option error;
  (** [client.Do]: the answer to a request, given the requests sent
      before it (oldest first) *)
  RoundTrip : list Request → Request → option Response * option error;
  (** [json.Marshal] on a [map[string]string] *)
  json_Marshal : gmap string string → string;
  (** [json.Unmarshal] into a zero [DnsRecordsResponse] *)
  json_Unmarshal : string → DnsRecordsResponse.t * option error;
  (** [strings.TrimSpace] *)
  strings_TrimSpace : string → string
}.

(** ** Program state and the monad of the program *)

Definition loc : Type := positive.

Record State : Type := mkState {
  (** requests handed to the transport so far, oldest first *)
  sent : list Request;
  (** lines written to standard output, oldest first *)
  stdout : list string;
  (** the backing array of the slice [dnsRecordsResponses] *)
  dnsRecordsResponses : list DnsRecordResponseEntry.t;
  (** the [DnsRecord] values allocated by [CreateDnsRecordFrom] *)
  heap : gmap loc DnsRecord.t
}.

(** How a computation ends: it returns, the process exits through
    [log.Fatal], or it panics. *)
Inductive outcome (T : Type) : Type :=
| Ret (v : T)
| Fatal (msg : string)
| Panic (msg : string).
Arguments Ret {T} v.
Arguments Fatal {T} msg.
Arguments Panic {T} msg.

Definition M (T : Type) : Type := State → outcome T * State.

Definition ret {T} (v : T) : M T := λ st, (Ret v, st).

Definition bind {T U} (m : M T) (k : T → M U) : M U := λ st,
  match m st with
  | (Ret v, st') => k v st'
  | (Fatal msg, st') => (Fatal msg, st')
  | (Panic msg, st') => (Panic msg, st')
  end.

Notation "'do' x <- m ; k" := (bind m (λ x, k))
  (at level 10, x name, m at level 100, k at level 200).
Notation "'do' ' p <- m ; k" := (bind m (λ x, match x with p => k end))
  (at level 10, p pattern, m at level 100, k at level 200).

Definition log_Fatal {T} (msg : string) : M T := λ st, (Fatal msg, st).

Definition panic {T} (msg : string) : M T := λ st, (Panic msg, st).

Definition nil_dereference : string :=
  "runtime error: invalid memory address or nil pointer dereference".

(** [defer d] around the rest of a function body: [d] runs when the body
    returns or panics, and does not run when the process exits. *)
Definition defer {T} (d : M unit) (body : M T) : M T := λ st,
  match body st with
  | (Ret v, st') =>
      match d st' with
      | (Ret _, st'') => (Ret v, st'')
      | (Fatal msg, st'') => (Fatal msg, st'')
      | (Panic msg, st'') => (Panic msg, st'')
      end
  | (Fatal msg, st') => (Fatal msg, st')
  | (Panic msg, st') =>
      match d st' with
      | (Ret _, st'') => (Panic msg, st'')
      | (Fatal msg', st'') => (Fatal msg', st'')
      | (Panic msg', st'') => (Panic msg', st'')
      end
  end.

(** [fmt.Println] of string operands: separated by spaces, ended by a
    line feed. *)
Fixpoint join_spaces (operands : list string) : string :=
  match operands with
  | [] => ""
  | [x] => x
  | x :: rest => x +:+ " " +:+ join_spaces rest
  end.

Definition fmt_Println (operands : list string) : M unit := λ st,
  (Ret tt,
   mkState (sent st) (stdout st ++ [join_spaces operands +:+ LF])
           (dnsRecordsResponses st) (heap st)).

(** ** Memory *)

Definition new_DnsRecord (v : DnsRecord.t) : M loc := λ st,
  let p := fresh (dom (heap st)) in
  (Ret p,
   mkState (sent st) (stdout st) (dnsRecordsResponses st) (<[p := v]> (heap st))).

Definition load (p : loc) : M DnsRecord.t := λ st,
  match heap st !! p with
  | Some v => (Ret v, st)
  | None => (Panic nil_dereference, st)
  end.

Definition store_Content (p : loc) (content : string) : M unit := λ st,
  match heap st !! p with
  | Some v =>
      (Ret tt,
       mkState (sent st) (stdout st) (dnsRecordsResponses st)
         (<[p := DnsRecord.mk (DnsRecord.Id v) (DnsRecord.ZoneId v)
                   (DnsRecord.Type_ v) (DnsRecord.Name v) content]> (heap st)))
  | None => (Panic nil_dereference, st)
  end.

(** Element [i] of the slice [dnsRecordsResponses]. *)
Definition index_dnsRecordsResponses (i : nat) : M DnsRecordResponseEntry.t := λ st,
  match dnsRecordsResponses st !! i with
  | Some entry => (Ret entry, st)
  | None => (Panic "runtime error: index out of range", st)
  end.

Definition assign_dnsRecordsResponses (entries : list DnsRecordResponseEntry.t) : M unit :=
  λ st, (Ret tt, mkState (sent st) (stdout st) entries (heap st)).

(** Indexing a Go map: the zero value when the key is absent. *)
Definition map_index (m : gmap string string) (key : string) : string :=
  default "" (m !! key).

(** ** strings.Split with the one-byte separator used by [main] *)

Fixpoint split_byte (sep : ascii) (s : string) : list string :=
  match s with
  | EmptyString => [EmptyString]
  | String c rest =>
      if Ascii.eqb c sep then EmptyString :: split_byte sep rest
      else match split_byte sep rest with
           | [] => [String c EmptyString]
           | field :: fields => String c field :: fields
           end
  end.

Definition comma : ascii := ","%char.

(** [strings.Split(s, ",")] *)
Definition strings_Split_comma (s : string) : list string := split_byte comma s.

(** ** Functions of main.go *)

Fixpoint contains (list : list string) (value : string) : bool :=
  match list with
  | [] => false
  | item :: rest => if String.eqb item value then true else contains rest value
  end.

Definition CreateDnsRecordFrom (entry : DnsRecordResponseEntry.t) : M loc :=
  new_DnsRecord
    (DnsRecord.mk (DnsRecordResponseEntry.Id entry)
                  (DnsRecordResponseEntry.ZoneId entry)
                  (DnsRecordResponseEntry.Type_ entry)
                  (DnsRecordResponseEntry.Name entry)
                  (DnsRecordResponseEntry.Content entry)).

Section Program.

Variable W : World.

Definition http_NewRequest (method url : string) (body : option string)
  : option Request * option error :=
  match NewRequest_error W method url with
  | Some err => (None, Some err)
  | None => (Some (mkRequest method url ∅ body), None)
  end.

Definition client_Do (request : Request) : M (option Response * option error) :=
  λ st,
  (Ret (RoundTrip W (sent st) request),
   mkState (sent st ++ [request]) (stdout st) (dnsRecordsResponses st) (heap st)).

Definition http_Get (url : string) : M (option Response * option error) :=
  match http_NewRequest http_MethodGet url None with
  | (Some request, None) => client_Do request
  | (_, err) => ret (None, err)
  end.

Definition auth_Header (email key : string) : gmap string (list string) :=
  {[ "x-auth-email" := [email];
     "x-auth-key" := [key];
     "Content-Type" := ["application/json"] ]}.

Definition set_Header (request : Request) (h : gmap string (list string)) : Request :=
  mkRequest (Method request) (URL request) h (RequestBody request).

(** The deferred closure of [updateDnsRecord] and [getDnsRecords]. *)
Definition close_or_Fatal (b : ReadCloser) : M unit :=
  match Close b with
  | Some err => log_Fatal err
  | None => ret tt
  end.

(** The deferred closure of [getExternalIpAddress]: the error is dropped. *)
Definition close_quietly (b : ReadCloser) : M unit :=
  match Close b with
  | Some err => ret tt
  | None => ret tt
  end.

Definition updateDnsRecord (record : DnsRecord.t) (email key : string)
  : M (option error) :=
  let data := json_Marshal W {[ "content" := DnsRecord.Content record ]} in
  match http_NewRequest http_MethodPatch
          (CLOUDFLARE +:+ DnsRecord.ZoneId record +:+ "/dns_records/"
             +:+ DnsRecord.Id record)
          (Some data) with
  | (_, Some err) => ret (Some err)
  | (None, None) => panic nil_dereference
  | (Some request, None) =>
      let request := set_Header request (auth_Header email key) in
      do '(response, err) <- client_Do request;
      match err with
      | Some err => ret (Some err)
      | None =>
          match response with
          | None => panic nil_dereference
          | Some response =>
              defer (close_or_Fatal (Body response))
                (let '(bodyBytes, err) := ReadAll (Body response) in
                 match err with
                 | Some err => ret (Some err)
                 | None =>
                     if negb (StatusCode response =? http_StatusOK)%Z then
                       ret (Some (errors_New
                         ("Could not update DNS record " +:+ data +:+ LF +:+
                          "Response status: " +:+ Status response +:+ LF +:+
                          bodyBytes)))
                     else ret None
                 end)
          end
      end
  end.

Definition getExternalIpAddress (version : string) : M (string * option error) :=
  do '(response, err) <- http_Get ("https://" +:+ version +:+ ".icanhazip.com/");
  match err with
  | Some err => ret ("", Some err)
  | None =>
      match response with
      | None => panic nil_dereference
      | Some response =>
          defer (close_quietly (Body response))
            (if (StatusCode response =? http_StatusOK)%Z then
               let '(bodyBytes, err') := ReadAll (Body response) in
               match err' with
               | Some err' => log_Fatal err'
               | None => ret (strings_TrimSpace W bodyBytes, None)
               end
             else ret ("", err))
      end
  end.

Definition getExternalIpAddresses : M (option (gmap string string) * option error) :=
  do '(ipv4, err) <- getExternalIpAddress "ipv4";
  match err with
  | Some err => ret (None, Some err)
  | None =>
      do '(ipv6, err) <- getExternalIpAddress "ipv6";
      match err with
      | Some err => ret (None, Some err)
      | None => ret (Some {[ A := ipv4; AAAA := ipv6 ]}, None)
      end
  end.

Definition getDnsRecords (zoneId email key : string)
  : M (list DnsRecordResponseEntry.t * option error) :=
  match http_NewRequest http_MethodGet (CLOUDFLARE +:+ zoneId +:+ "/dns_records") None with
  | (_, Some err) => ret ([], Some err)
  | (None, None) => panic nil_dereference
  | (Some request, None) =>
      let request := set_Header request (auth_Header email key) in
      do '(response, err) <- client_Do request;
      match response with
      | None => panic nil_dereference
      | Some response =>
          defer (close_or_Fatal (Body response))
            (let '(body, err) := ReadAll (Body response) in
             let '(dnsRecordsResponse, err) := json_Unmarshal W body in
             match err with
             | Some err => ret ([], Some err)
             | None => ret (DnsRecordsResponse.Result dnsRecordsResponse, None)
             end)
      end
  end.

(** The body of the [for ... range] loop of [main]. *)
Definition loop_body (dnsNames : list string) (ipAddresses : gmap string string)
    (email key : string) (dnsRecordResponse : DnsRecordResponseEntry.t) : M unit :=
  do dnsRecord <- CreateDnsRecordFrom dnsRecordResponse;
  do r <- load dnsRecord;
  if negb (contains dnsNames (DnsRecord.Name r)) then ret tt
  else
    match ipAddresses !! DnsRecord.Type_ r with
    | None => ret tt
    | Some currentContent =>
        if String.eqb currentContent (DnsRecord.Content r) then ret tt
        else
          do _ <- fmt_Println [DnsRecord.Type_ r; DnsRecord.Name r;
                               DnsRecord.Content r; "->";
                               map_index ipAddresses (DnsRecord.Type_ r)];
          do _ <- store_Content dnsRecord (map_index ipAddresses (DnsRecord.Type_ r));
          do r' <- load dnsRecord;
          do err <- updateDnsRecord r' email key;
          match err with
          | Some err => log_Fatal err
          | None => ret tt
          end
    end.

(** [for _, x := range dnsRecordsResponses { body }]: [n] iterations are
    left and the next one reads element [i]. *)
Fixpoint range_from (n i : nat) (body : DnsRecordResponseEntry.t → M unit) : M unit :=
  match n with
  | O => ret tt
  | S n' =>
      do x <- index_dnsRecordsResponses i;
      do _ <- body x;
      range_from n' (S i) body
  end.

Definition main_loop (dnsNames : list string) (ipAddresses : gmap string string)
    (email key : string) : M unit := λ st,
  range_from (length (dnsRecordsResponses st)) 0
    (loop_body dnsNames ipAddresses email key) st.

(** The pre-flight test of [main] on the four parsed flags. *)
Definition missing_arguments (zoneId email key dnsNamesRawInput : string) : bool :=
  (String.eqb zoneId "" || String.eqb email "" || String.eqb key ""
   || String.eqb dnsNamesRawInput "")%bool.

(** [main], from the parsed flags on. *)
Definition main (zoneId email key dnsNamesRawInput : string) : M unit :=
  if missing_arguments zoneId email key dnsNamesRawInput
  then log_Fatal "Missing arguments. Use -h for help"
  else
    let dnsNames := strings_Split_comma dnsNamesRawInput in
    do '(ipAddresses, err) <- getExternalIpAddresses;
    match err with
    | Some err => log_Fatal err
    | None =>
        do '(entries, err) <- getDnsRecords zoneId email key;
        match err with
        | Some err => log_Fatal err
        | None =>
            do _ <- assign_dnsRecordsResponses entries;
            main_loop dnsNames (default ∅ ipAddresses) email key
        end
    end.

End Program.

(** ** Vocabulary of the specification *)

Abbreviation Entry := DnsRecordResponseEntry.t.

(** The projection of a provider record that [CreateDnsRecordFrom] stores. *)
Definition projection (e : Entry) : DnsRecord.t :=
  DnsRecord.mk (DnsRecordResponseEntry.Id e) (DnsRecordResponseEntry.ZoneId e)
    (DnsRecordResponseEntry.Type_ e) (DnsRecordResponseEntry.Name e)
    (DnsRecordResponseEntry.Content e).

(** A record is eligible for update: its name is a sync name, the address
    map has an entry for its type, and its content differs from that entry. *)
Definition eligible (syncNames : list string) (addressSet : gmap string string)
    (e : Entry) : Prop :=
  DnsRecordResponseEntry.Name e ∈ syncNames ∧
  ∃ a, addressSet !! DnsRecordResponseEntry.Type_ e = Some a ∧
       DnsRecordResponseEntry.Content e ≠ a.

(** The two tests of the loop body that decide it. *)
Definition eligibleb (syncNames : list string) (addressSet : gmap string string)
    (e : Entry) : bool :=
  contains syncNames (DnsRecordResponseEntry.Name e) &&
  match addressSet !! DnsRecordResponseEntry.Type_ e with
  | Some a => negb (String.eqb a (DnsRecordResponseEntry.Content e))
  | None => false
  end.

(** The update instruction of the specification. *)
Record UpdateInstruction : Type := mkUpdateInstruction {
  recordId : string;
  zoneId : string;
  newContent : string
}.

(** The value of [*dnsRecord] once its content has been overwritten with
    [ipAddresses[dnsRecord.Type]]. *)
Definition overwritten (ipAddresses : gmap string string) (e : Entry) : DnsRecord.t :=
  DnsRecord.mk (DnsRecordResponseEntry.Id e) (DnsRecordResponseEntry.ZoneId e)
    (DnsRecordResponseEntry.Type_ e) (DnsRecordResponseEntry.Name e)
    (map_index ipAddresses (DnsRecordResponseEntry.Type_ e)).

(** What [updateDnsRecord] reads of its argument. *)
Definition instruction_of (record : DnsRecord.t) : UpdateInstruction :=
  mkUpdateInstruction (DnsRecord.Id record) (DnsRecord.ZoneId record)
    (DnsRecord.Content record).

(** The line printed for a kept, changed record. *)
Definition announcement (ipAddresses : gmap string string) (e : Entry) : string :=
  join_spaces [DnsRecordResponseEntry.Type_ e; DnsRecordResponseEntry.Name e;
               DnsRecordResponseEntry.Content e; "->";
               map_index ipAddresses (DnsRecordResponseEntry.Type_ e)] +:+ LF.

(** The state in which an iteration that skips its record ends. *)
Definition skipped (st : State) (e : Entry) : State :=
  mkState (sent st) (stdout st) (dnsRecordsResponses st)
    (<[fresh (dom (heap st)) := projection e]> (heap st)).

(** The state in which an iteration calls [updateDnsRecord]. *)
Definition announced (ipAddresses : gmap string string) (st : State) (e : Entry) : State :=
  mkState (sent st) (stdout st ++ [announcement ipAddresses e])
    (dnsRecordsResponses st)
    (<[fresh (dom (heap st)) := overwritten ipAddresses e]> (heap st)).

(** A provider record with its content replaced. *)
Definition set_content (e : Entry) (content : string) : Entry :=
  DnsRecordResponseEntry.mk
    (DnsRecordResponseEntry.Id e) (DnsRecordResponseEntry.ZoneId e)
    (DnsRecordResponseEntry.ZoneName e) (DnsRecordResponseEntry.Name e)
    (DnsRecordResponseEntry.Type_ e) content
    (DnsRecordResponseEntry.Proxiable e) (DnsRecordResponseEntry.Proxied e)
    (DnsRecordResponseEntry.Ttl e) (DnsRecordResponseEntry.Locked e)
    (DnsRecordResponseEntry.Meta e) (DnsRecordResponseEntry.CreatedOn e)
    (DnsRecordResponseEntry.ModifiedOn e).

(** The record the provider holds once the update of an eligible record has
    been applied: its content is the address of its type; any other record
    stays as it is. *)
Definition synced (syncNames : list string) (addressSet : gmap string string)
    (e : Entry) : Entry :=
  if eligibleb syncNames addressSet e
  then set_content e (map_index addressSet (DnsRecordResponseEntry.Type_ e))
  else e.

(** Running a loop body over a list of entries, in order. *)
Fixpoint for_each (entries : list Entry) (body : Entry → M unit) : M unit :=
  match entries with
  | [] => ret tt
  | x :: rest => do _ <- body x; for_each rest body
  end.

(** A computation leaves a component of the state alone. *)
Definition keeps {X T} (f : State → X) (m : M T) : Prop :=
  ∀ st, f (m st).2 = f st.

(** A component of the state that does not mention the requests sent. *)
Definition off_network {X} (f : State → X) : Prop :=
  ∀ st requests,
    f (mkState requests (stdout st) (dnsRecordsResponses st) (heap st)) = f st.

(** The request [updateDnsRecord] hands to the transport for an
    instruction. *)
Definition patch_request (W : World) (email key : string) (i : UpdateInstruction)
  : Request :=
  mkRequest http_MethodPatch
    (CLOUDFLARE +:+ zoneId i +:+ "/dns_records/" +:+ recordId i)
    (auth_Header email key)
    (Some (json_Marshal W {[ "content" := newContent i ]})).

(** The instructions of the eligible records of a sequence, in its order. *)
Definition instructions (syncNames : list string) (addressSet : gmap string string)
    (entries : list Entry) : list UpdateInstruction :=
  (λ e, instruction_of (overwritten addressSet e))
    <$> filter (λ e, eligibleb syncNames addressSet e = true) entries.

(** The request [http.Get] makes for an address family. *)
Definition echo_request (version : string) : Request :=
  mkRequest http_MethodGet ("https://" +:+ version +:+ ".icanhazip.com/") ∅ None.

(** The state once a request has been handed to the transport. *)
Definition after_request (st : State) (request : Request) : State :=
  mkState (sent st ++ [request]) (stdout st) (dnsRecordsResponses st) (heap st).

(** The request [getDnsRecords] makes for a zone. *)
Definition list_request (zone email key : string) : Request :=
  mkRequest http_MethodGet (CLOUDFLARE +:+ zone +:+ "/dns_records")
    (auth_Header email key) None.

(** The text of the error [updateDnsRecord] builds for a refused update. *)
Definition update_error_text (W : World) (record : DnsRecord.t) (response : Response)
    (bodyBytes : string) : string :=
  "Could not update DNS record "
    +:+ json_Marshal W {[ "content" := DnsRecord.Content record ]} +:+ LF
    +:+ "Response status: " +:+ Status response +:+ LF
    +:+ bodyBytes.

(** The contract of the updater read as an equivalence, for a call that the
    provider answered: the call returns an error exactly when the status is
    not 200. *)
Definition fails_iff_status_not_OK (W : World) (record : DnsRecord.t)
    (email key : string) (st : State) : Prop :=
  ∀ response,
    RoundTrip W (sent st) (patch_request W email key (instruction_of record))
      = (Some response, None) →
    ((∃ err st', updateDnsRecord W record email key st = (Ret (Some err), st'))
     ↔ StatusCode response ≠ http_StatusOK).

(** ** Vocabulary of the further properties *)

(** [strings.Join(fields, sep)] for a one-byte separator. *)
Fixpoint join_byte (sep : ascii) (fields : list string) : string :=
  match fields with
  | [] => EmptyString
  | [x] => x
  | x :: rest => x +:+ String sep (join_byte sep rest)
  end.

(** The byte occurs in the string. *)
Fixpoint occurs (c : ascii) (s : string) : bool :=
  match s with
  | EmptyString => false
  | String d rest => Ascii.eqb d c || occurs c rest
  end.

(** The number of occurrences of the byte in the string. *)
Fixpoint count_byte (c : ascii) (s : string) : nat :=
  match s with
  | EmptyString => O
  | String d rest => (if Ascii.eqb d c then 1 else 0) + count_byte c rest
  end.

(** Every request a computation hands to the transport satisfies [P], and
    the requests sent before it stay in place. *)
Definition sends_only {T} (P : Request → Prop) (m : M T) : Prop :=
  ∀ st, ∃ requests,
    sent (m st).2 = sent st ++ requests ∧ Forall P requests.

(** The four kinds of request the program makes. *)
Definition request_of_main (W : World) (zone email key : string) (r : Request) : Prop :=
  r = echo_request "ipv4" ∨ r = echo_request "ipv6" ∨
  r = list_request zone email key ∨
  ∃ i, r = patch_request W email key i.

(** The state in which the loop of [main] starts: the three lookups have been
    sent and the fetched records assigned. *)
Definition fetched (st : State) (zone email key : string)
    (entries : list Entry) : State :=
  mkState (sent st ++ [echo_request "ipv4"; echo_request "ipv6";
                       list_request zone email key])
    (stdout st) entries (heap st).

(** Applying updates one after the other, as the loop of [main] does with
    the records it keeps: the first call that returns an error ends the
    process. *)
Fixpoint apply_in_order (W : World) (email key : string)
    (records : list DnsRecord.t) : M unit :=
  match records with
  | [] => ret tt
  | record :: rest =>
      do err <- updateDnsRecord W record email key;
      match err with
      | Some err => log_Fatal err
      | None => apply_in_order W email key rest
      end
  end.

(** The records handed to [updateDnsRecord] for a fetched sequence when no
    call fails: the eligible ones, in order, with their content
    overwritten. *)
Definition selected (syncNames : list string) (addressSet : gmap string string)
    (entries : list Entry) : list DnsRecord.t :=
  overwritten addressSet
    <$> filter (λ e, eligibleb syncNames addressSet e = true) entries.

(** The state with another slice of fetched records. *)
Definition with_slice (st : State) (entries : list Entry) : State :=
  mkState (sent st) (stdout st) entries (heap st).

(** ** A concrete world for the scenarios *)

Module Scenario.

Definition is_space (c : ascii) : bool :=
  let n := nat_of_ascii c in
  ((n =? 32)%nat || ((9 <=? n)%nat && (n <=? 13)%nat))%bool.

Fixpoint trim_left (s : string) : string :=
  match s with
  | EmptyString => EmptyString
  | String c rest => if is_space c then trim_left rest else s
  end.

Fixpoint trim_right (s : string) : string :=
  match s with
  | EmptyString => EmptyString
  | String c rest =>
      match trim_right rest with
      | EmptyString => if is_space c then EmptyString else String c EmptyString
      | kept => String c kept
      end
  end.

Definition trim (s : string) : string := trim_right (trim_left s).

Definition quote : string := String (ascii_of_nat 34) EmptyString.

Definition marshal (m : gmap string string) : string :=
  "{" +:+ quote +:+ "content" +:+ quote +:+ ":" +:+ quote
      +:+ default "" (m !! "content") +:+ quote +:+ "}".

Definition record (id name type content : string) : Entry :=
  DnsRecordResponseEntry.mk id "z1" "example.com" name type content
    true false 1%Z false (Meta.mk false false false "primary") 0%Z 0%Z.

Definition home : Entry := record "r1" "home.example.com" "A" "1.2.3.4".

Definition other : Entry := record "r0" "other.example.com" "A" "9.9.9.9".

Definition unmarshal (body : string) : DnsRecordsResponse.t * option error :=
  if String.eqb body "listing" then (DnsRecordsResponse.mk [home; home], None)
  else (DnsRecordsResponse.mk [], Some "unexpected end of JSON input").

Definition answer (code : Z) (status text : string) : Response :=
  mkResponse status code (mkReadCloser (text, None) None).

Definition world (transport : list Request → Request → option Response * option error)
  : World :=
  mkWorld (λ _ _, None) transport marshal unmarshal trim.

(** Every request is answered with 200. *)
Definition accepting : World :=
  world (λ _ request,
    if String.eqb (Method request) "GET"
    then (Some (answer 200 "200 OK" ("5.6.7.8" +:+ LF)), None)
    else (Some (answer 200 "200 OK" "done"), None)).

(** The ipv4 echo answers 200, every other request is answered with 500. *)
Definition failing_ipv6 : World :=
  world (λ _ request,
    if String.eqb (URL request) "https://ipv4.icanhazip.com/"
    then (Some (answer 200 "200 OK" ("5.6.7.8" +:+ LF)), None)
    else (Some (answer 500 "500 Internal Server Error" "echo unavailable"), None)).

(** No request gets through. *)
Definition unreachable : World :=
  world (λ _ _, (None, Some "dial tcp: connection refused")).

(** Every request is refused with 403. *)
Definition forbidden : World :=
  world (λ _ _, (Some (answer 403 "403 Forbidden" "forbidden"), None)).

(** Every request is answered with 200 and a body that breaks off. *)
Definition truncated : World :=
  world (λ _ _,
    (Some (mkResponse "200 OK" 200 (mkReadCloser ("", Some "unexpected EOF") None)),
     None)).

Definition start : State := mkState [] [] [] ∅.

Definition addresses : gmap string string := {[ A := "5.6.7.8"; AAAA := "2001:db8::1" ]}.

(** Every request is answered with 200 and a body that reads well and
    fails to close. *)
Definition closing_fails : World :=
  world (λ _ _,
    (Some (mkResponse "200 OK" 200 (mkReadCloser ("done", None) (Some "close failed"))),
     None)).

Definition home6 : Entry := record "r6" "home.example.com" "AAAA" "2001:db8::7".

(** A provider that lists [home; other; home6] and accepts every update; the
    ipv4 echo answers, the ipv6 echo answers with the given status. *)
Definition serving (ipv6_code : Z) : World :=
  mkWorld (λ _ _, None)
    (λ _ request,
       if String.eqb (URL request) "https://ipv4.icanhazip.com/"
       then (Some (answer 200 "200 OK" ("5.6.7.8" +:+ LF)), None)
       else if String.eqb (URL request) "https://ipv6.icanhazip.com/"
       then (Some (answer ipv6_code "" ("2001:db8::1" +:+ LF)), None)
       else if String.eqb (Method request) "GET"
       then (Some (answer 200 "200 OK" "listing"), None)
       else (Some (answer 200 "200 OK" "done"), None))
    marshal
    (λ body,
       if String.eqb body "listing"
       then (DnsRecordsResponse.mk [home; other; home6], None)
       else (DnsRecordsResponse.mk [], Some "unexpected end of JSON input"))
    trim.

End Scenario.

(** * Proofs *)

(** ** Facts about the helpers *)

Lemma contains_elem_of (names : list string) (value : string) :
  contains names value = true ↔ value ∈ names.
Proof.
  induction names as [|item rest IH]; simpl.
  - split; [discriminate | intros H; inversion H].
  - destruct (String.eqb_spec item value) as [->|Hne].
    + split; [intros _; left | reflexivity].
    + rewrite IH. split; [intros H; by right |].
      intros H. inversion H; subst; [congruence | done].
Qed.

Lemma eligibleb_reflect syncNames addressSet (e : Entry) :
  reflect (eligible syncNames addressSet e) (eligibleb syncNames addressSet e).
Proof.
  unfold eligible, eligibleb.
  destruct (contains syncNames (DnsRecordResponseEntry.Name e)) eqn:Hc; simpl.
  - apply contains_elem_of in Hc.
    destruct (addressSet !! DnsRecordResponseEntry.Type_ e) as [a|].
    + destruct (String.eqb_spec a (DnsRecordResponseEntry.Content e)) as [Heq|Hne];
        simpl; constructor.
      * intros [_ (b & Hb & Hn)]. congruence.
      * split; [done |]. exists a. split; [done | congruence].
    + constructor. intros [_ (b & Hb & _)]. discriminate.
  - constructor. intros [Hin _]. apply contains_elem_of in Hin. congruence.
Qed.

Lemma eligibleb_true syncNames addressSet (e : Entry) :
  eligibleb syncNames addressSet e = true ↔ eligible syncNames addressSet e.
Proof. destruct (eligibleb_reflect syncNames addressSet e); split; done. Qed.

Lemma split_byte_nonempty sep s : split_byte sep s ≠ [].
Proof.
  destruct s as [|c rest]; simpl; [discriminate |].
  destruct (Ascii.eqb c sep); [discriminate |].
  destruct (split_byte sep rest); discriminate.
Qed.

(** Splitting at an occurrence of the separator splits the field list. *)
Lemma split_byte_app sep (s1 s2 : string) :
  split_byte sep (s1 +:+ String sep s2) = split_byte sep s1 ++ split_byte sep s2.
Proof.
  induction s1 as [|c rest IH]; simpl.
  - by rewrite Ascii.eqb_refl.
  - destruct (Ascii.eqb c sep); [by rewrite IH |].
    rewrite IH. pose proof (split_byte_nonempty sep rest) as Hne.
    destruct (split_byte sep rest); [done | reflexivity].
Qed.

Lemma split_byte_empty_field_trailing sep (s : string) :
  "" ∈ split_byte sep (s +:+ String sep "").
Proof. rewrite split_byte_app. simpl. set_solver. Qed.

Lemma split_byte_empty_field_adjacent sep (s1 s2 : string) :
  "" ∈ split_byte sep (s1 +:+ String sep (String sep s2)).
Proof. rewrite split_byte_app. simpl. rewrite Ascii.eqb_refl. set_solver. Qed.

Lemma append_nonempty (s1 : string) c (s2 : string) : s1 +:+ String c s2 ≠ "".
Proof. destruct s1; discriminate. Qed.

(** ** Frame rules *)

Lemma keeps_ret {X T} (f : State → X) (v : T) : keeps f (ret v).
Proof. by intros st. Qed.

Lemma keeps_log_Fatal {X T} (f : State → X) msg : keeps f (@log_Fatal T msg).
Proof. by intros st. Qed.

Lemma keeps_panic {X T} (f : State → X) msg : keeps f (@panic T msg).
Proof. by intros st. Qed.

Lemma keeps_bind {X T U} (f : State → X) (m : M T) (k : T → M U) :
  keeps f m → (∀ v, keeps f (k v)) → keeps f (bind m k).
Proof.
  intros Hm Hk st. unfold bind. specialize (Hm st).
  destruct (m st) as [[v|msg|msg] st1]; simpl in *; [| done | done].
  by rewrite Hk.
Qed.

Lemma keeps_defer {X T} (f : State → X) (d : M unit) (body : M T) :
  keeps f d → keeps f body → keeps f (defer d body).
Proof.
  intros Hd Hb st. unfold defer. specialize (Hb st).
  destruct (body st) as [[v|msg|msg] st1]; simpl in *; [| done |].
  - specialize (Hd st1). destruct (d st1) as [[u|msg|msg] st2]; simpl in *; congruence.
  - specialize (Hd st1). destruct (d st1) as [[u|msg'|msg'] st2]; simpl in *; congruence.
Qed.

Lemma keeps_for_each {X} (f : State → X) entries body :
  (∀ x, keeps f (body x)) → keeps f (for_each entries body).
Proof.
  intros Hb. induction entries as [|x rest IH]; simpl.
  - apply keeps_ret.
  - apply keeps_bind; [apply Hb | intros _; apply IH].
Qed.

Lemma for_each_app entries1 entries2 body st :
  for_each (entries1 ++ entries2) body st =
  (do _ <- for_each entries1 body; for_each entries2 body) st.
Proof.
  revert st. induction entries1 as [|x rest IH]; intros st; simpl.
  - reflexivity.
  - unfold bind. destruct (body x st) as [[v|msg|msg] st1]; [| done | done].
    rewrite IH. reflexivity.
Qed.

(** While the loop body leaves the slice alone, ranging over the slice is
    running the body over its elements. *)
Lemma range_from_for_each body :
  (∀ x, keeps dnsRecordsResponses (body x)) →
  ∀ n i st, (i + n ≤ length (dnsRecordsResponses st))%nat →
    range_from n i body st =
    for_each (take n (drop i (dnsRecordsResponses st))) body st.
Proof.
  intros Hbody. induction n as [|n IH]; intros i st Hlen; simpl.
  - reflexivity.
  - destruct (lookup_lt_is_Some_2 (dnsRecordsResponses st) i) as [x Hx]; [lia |].
    rewrite (drop_S _ _ _ Hx). simpl.
    unfold bind at 1, index_dnsRecordsResponses. rewrite Hx.
    unfold bind. pose proof (Hbody x st) as Hkeep.
    destruct (body x st) as [[v|msg|msg] st1]; simpl in Hkeep; [| done | done].
    rewrite IH by (rewrite Hkeep; lia). by rewrite Hkeep.
Qed.

Lemma off_network_heap : off_network heap.
Proof. by intros st requests. Qed.

Lemma off_network_stdout : off_network stdout.
Proof. by intros st requests. Qed.

Lemma off_network_dnsRecordsResponses : off_network dnsRecordsResponses.
Proof. by intros st requests. Qed.

Create HintDb frame discriminated.
#[global] Hint Resolve keeps_ret keeps_log_Fatal keeps_panic
  off_network_heap off_network_stdout off_network_dnsRecordsResponses : frame.

Section Frames.

Variable W : World.

Lemma keeps_client_Do {X} (f : State → X) request :
  off_network f → keeps f (client_Do W request).
Proof. intros Hf st. apply Hf. Qed.

Lemma keeps_close_or_Fatal {X} (f : State → X) b : keeps f (close_or_Fatal b).
Proof. unfold close_or_Fatal. destruct (Close b); auto with frame. Qed.

Lemma keeps_updateDnsRecord {X} (f : State → X) record email key :
  off_network f → keeps f (updateDnsRecord W record email key).
Proof.
  intros Hf. unfold updateDnsRecord.
  destruct (http_NewRequest W _ _ _) as [[request|] [err|]]; auto with frame.
  apply keeps_bind; [by apply keeps_client_Do |].
  intros [[response|] [err|]]; auto with frame.
  apply keeps_defer; [apply keeps_close_or_Fatal |].
  destruct (ReadAll (Body response)) as [bodyBytes [err|]]; auto with frame.
  destruct (negb _); auto with frame.
Qed.

(** *** The two ways an iteration of the loop goes *)

Lemma loop_body_skips dnsNames ipAddresses email key e st :
  ¬ eligible dnsNames ipAddresses e →
  loop_body W dnsNames ipAddresses email key e st = (Ret tt, skipped st e).
Proof.
  intros Hno. unfold loop_body, CreateDnsRecordFrom, new_DnsRecord, load, bind.
  simpl. rewrite lookup_insert_eq. simpl.
  destruct (contains dnsNames (DnsRecordResponseEntry.Name e)) eqn:Hc; simpl; [| done].
  apply contains_elem_of in Hc.
  destruct (ipAddresses !! DnsRecordResponseEntry.Type_ e) as [a|] eqn:Ha; [| done].
  destruct (String.eqb_spec a (DnsRecordResponseEntry.Content e)) as [Heq|Hne]; [done |].
  exfalso. apply Hno. split; [done |]. exists a. split; [done | congruence].
Qed.

Lemma loop_body_updates dnsNames ipAddresses email key e st :
  eligible dnsNames ipAddresses e →
  loop_body W dnsNames ipAddresses email key e st =
  (do err <- updateDnsRecord W (overwritten ipAddresses e) email key;
   match err with
   | Some err => log_Fatal err
   | None => ret tt
   end) (announced ipAddresses st e).
Proof.
  intros [Hin (a & Ha & Hne)].
  unfold loop_body, CreateDnsRecordFrom, new_DnsRecord, load, bind at 1 2.
  simpl. rewrite lookup_insert_eq. simpl.
  apply contains_elem_of in Hin. rewrite Hin. simpl. rewrite Ha.
  destruct (String.eqb_spec a (DnsRecordResponseEntry.Content e)) as [Heq|_];
    [congruence |].
  unfold bind at 1, fmt_Println. unfold bind at 1, store_Content. simpl.
  rewrite lookup_insert_eq. simpl. unfold bind at 1. simpl.
  rewrite lookup_insert_eq, insert_insert_eq. reflexivity.
Qed.

Lemma loop_body_keeps_slice dnsNames ipAddresses email key e :
  keeps dnsRecordsResponses (loop_body W dnsNames ipAddresses email key e).
Proof.
  intros st. destruct (eligibleb_reflect dnsNames ipAddresses e) as [Hy|Hn].
  - rewrite loop_body_updates by done.
    change (dnsRecordsResponses st)
      with (dnsRecordsResponses (announced ipAddresses st e)).
    apply keeps_bind; [apply keeps_updateDnsRecord; auto with frame |].
    intros [err|]; auto with frame.
  - by rewrite loop_body_skips.
Qed.

Lemma main_loop_for_each dnsNames ipAddresses email key st :
  main_loop W dnsNames ipAddresses email key st =
  for_each (dnsRecordsResponses st) (loop_body W dnsNames ipAddresses email key) st.
Proof.
  unfold main_loop.
  rewrite range_from_for_each; [| apply loop_body_keeps_slice | simpl; lia].
  by rewrite drop_0, firstn_all.
Qed.

End Frames.

Section Runs.

Variable W : World.

(** A call of [updateDnsRecord] sends its request, or sends nothing and
    does not report success. *)
Lemma updateDnsRecord_sent record email key st :
  (sent (updateDnsRecord W record email key st).2 = sent st ∧
   (updateDnsRecord W record email key st).1 ≠ Ret None) ∨
  sent (updateDnsRecord W record email key st).2 =
    sent st ++ [patch_request W email key (instruction_of record)].
Proof.
  unfold updateDnsRecord, http_NewRequest.
  destruct (NewRequest_error W _ _) as [err|]; [left; by split |].
  right.
  change (sent st ++ [patch_request W email key (instruction_of record)])
    with (sent (client_Do W (patch_request W email key (instruction_of record)) st).2).
  unfold bind. simpl.
  destruct (RoundTrip W _ _) as [[response|] [err|]]; try done.
  unfold defer.
  destruct (ReadAll (Body response)) as [bodyBytes [err|]];
    [| destruct (negb _)]; unfold ret, close_or_Fatal;
    destruct (Close (Body response)); done.
Qed.

(** The iteration ended the run: it sent nothing, or its one request. *)
Ltac run_aborted Hsent :=
  let Hs := fresh "Hs" in
  destruct Hsent as [[Hs _]|Hs]; [exists 0%nat | exists 1%nat];
  simpl; rewrite Hs, ?app_nil_r, ?take_0; by split.

Lemma for_each_sent dnsNames ipAddresses email key entries : ∀ st,
  ∃ k,
    sent (for_each entries (loop_body W dnsNames ipAddresses email key) st).2 =
      sent st ++
      (patch_request W email key <$> take k (instructions dnsNames ipAddresses entries))
    ∧ ((for_each entries (loop_body W dnsNames ipAddresses email key) st).1 = Ret tt →
       k = length (instructions dnsNames ipAddresses entries)).
Proof.
  induction entries as [|e rest IH]; intros st.
  - exists 0%nat. simpl. by rewrite app_nil_r.
  - unfold instructions. simpl for_each. unfold bind.
    destruct (eligibleb_reflect dnsNames ipAddresses e) as [Hy|Hn].
    + rewrite filter_cons_True by (by apply eligibleb_true).
      rewrite loop_body_updates by done. unfold bind.
      pose proof (updateDnsRecord_sent (overwritten ipAddresses e) email key
                    (announced ipAddresses st e)) as Hsent.
      destruct (updateDnsRecord W _ email key _) as [[[err|]|msg|msg] st1];
        simpl in Hsent.
      * run_aborted Hsent.
      * destruct Hsent as [[_ Hs]|Hs]; [done |].
        destruct (IH st1) as (k & Hk & Hlen). exists (S k). simpl.
        rewrite Hk, Hs, <- app_assoc. split; [done |].
        intros Hret. by rewrite (Hlen Hret).
      * run_aborted Hsent.
      * run_aborted Hsent.
    + rewrite filter_cons_False by (by rewrite eligibleb_true).
      rewrite loop_body_skips by done.
      destruct (IH (skipped st e)) as (k & Hk & Hlen). exists k. by split.
Qed.

End Runs.

(** ** The reconciliation loop *)

(** One iteration: the loop body issues an update for its record
    exactly when the record's name is a sync name, the address map has an
    entry for its type and its content differs from that entry; the record
    handed to [updateDnsRecord] carries the source record's id and zone id
    and the map entry as content.  Otherwise the iteration only allocates
    its projection and sends and prints nothing. *)
Theorem loop_body_emits_iff_eligible (W : World) (dnsNames : list string)
    (ipAddresses : gmap string string) (email key : string) (e : Entry) (st : State) :
  (eligible dnsNames ipAddresses e ∧
   ∃ a, ipAddresses !! DnsRecordResponseEntry.Type_ e = Some a ∧
     instruction_of (overwritten ipAddresses e) =
       mkUpdateInstruction (DnsRecordResponseEntry.Id e)
         (DnsRecordResponseEntry.ZoneId e) a ∧
     loop_body W dnsNames ipAddresses email key e st =
       (do err <- updateDnsRecord W
                    (DnsRecord.mk (DnsRecordResponseEntry.Id e)
                       (DnsRecordResponseEntry.ZoneId e)
                       (DnsRecordResponseEntry.Type_ e)
                       (DnsRecordResponseEntry.Name e) a) email key;
        match err with
        | Some err => log_Fatal err
        | None => ret tt
        end) (announced ipAddresses st e))
  ∨
  (¬ eligible dnsNames ipAddresses e ∧
   loop_body W dnsNames ipAddresses email key e st = (Ret tt, skipped st e)).
Proof.
  destruct (eligibleb_reflect dnsNames ipAddresses e) as [Hy|Hn].
  - left. split; [done |]. pose proof Hy as [Hin (a & Ha & Hne)].
    exists a. split; [done |].
    assert (Hidx : map_index ipAddresses (DnsRecordResponseEntry.Type_ e) = a)
      by (unfold map_index; by rewrite Ha).
    split.
    + unfold instruction_of, overwritten. simpl. by rewrite Hidx.
    + rewrite loop_body_updates by done. unfold overwritten. by rewrite Hidx.
  - right. split; [done |]. by apply loop_body_skips.
Qed.

Lemma instructions_app syncNames addressSet (entries1 entries2 : list Entry) :
  instructions syncNames addressSet (entries1 ++ entries2) =
  instructions syncNames addressSet entries1 ++ instructions syncNames addressSet entries2.
Proof. unfold instructions. by rewrite filter_app, fmap_app. Qed.

Lemma instructions_cons_eligible syncNames addressSet (e : Entry) entries :
  eligible syncNames addressSet e →
  instructions syncNames addressSet (e :: entries) =
  instruction_of (overwritten addressSet e) :: instructions syncNames addressSet entries.
Proof.
  intros He. unfold instructions.
  by rewrite filter_cons_True by (by apply eligibleb_true).
Qed.

(** The update requests of a run are those of the eligible records in
    the order of the fetched sequence: the requests sent are the first [k]
    instructions of the filtered sequence, all of them when the loop runs to
    its end.  Nothing is merged: an eligible record that occurs twice
    contributes its instruction twice, each at its own place. *)
Theorem main_loop_requests_in_order (W : World) (dnsNames : list string)
    (ipAddresses : gmap string string) (email key : string) (st : State) :
  (∃ k,
    sent (main_loop W dnsNames ipAddresses email key st).2 =
      sent st ++
      (patch_request W email key
         <$> take k (instructions dnsNames ipAddresses (dnsRecordsResponses st)))
    ∧ ((main_loop W dnsNames ipAddresses email key st).1 = Ret tt →
       k = length (instructions dnsNames ipAddresses (dnsRecordsResponses st))))
  ∧
  (∀ (e : Entry) (before between after : list Entry),
    eligible dnsNames ipAddresses e →
    instructions dnsNames ipAddresses (before ++ e :: between ++ e :: after) =
      instructions dnsNames ipAddresses before ++
      instruction_of (overwritten ipAddresses e) ::
      instructions dnsNames ipAddresses between ++
      instruction_of (overwritten ipAddresses e) ::
      instructions dnsNames ipAddresses after).
Proof.
  split.
  - rewrite main_loop_for_each. apply for_each_sent.
  - intros e before between after He.
    rewrite instructions_app, instructions_cons_eligible by done.
    by rewrite instructions_app, instructions_cons_eligible by done.
Qed.

(** Two identical eligible records, every update accepted: two identical
    requests are sent. *)
Example duplicate_records_two_requests :
  sent (main_loop Scenario.accepting ["home.example.com"] Scenario.addresses
          "me@example.com" "secret"
          (mkState [] [] [Scenario.home; Scenario.home] ∅)).2 =
  [ patch_request Scenario.accepting "me@example.com" "secret"
      (mkUpdateInstruction "r1" "z1" "5.6.7.8");
    patch_request Scenario.accepting "me@example.com" "secret"
      (mkUpdateInstruction "r1" "z1" "5.6.7.8") ].
Proof. vm_compute. reflexivity. Qed.

(** C8: when the update of a record fails, the run ends there: the loop
    exits through [log.Fatal] with the error, in the very state in which the
    failed call returned, so that nothing is sent for any later record. *)
Theorem main_loop_aborts_on_failed_update (W : World) (dnsNames : list string)
    (ipAddresses : gmap string string) (email key : string)
    (st st1 st2 : State) (before after : list Entry) (e : Entry) (err : error) :
  dnsRecordsResponses st = before ++ e :: after →
  range_from (length before) 0 (loop_body W dnsNames ipAddresses email key) st
    = (Ret tt, st1) →
  eligible dnsNames ipAddresses e →
  updateDnsRecord W (overwritten ipAddresses e) email key
    (announced ipAddresses st1 e) = (Ret (Some err), st2) →
  main_loop W dnsNames ipAddresses email key st = (Fatal err, st2).
Proof.
  intros Hslice Hbefore He Hfail.
  rewrite range_from_for_each in Hbefore;
    [| apply loop_body_keeps_slice | rewrite Hslice, length_app; simpl; lia].
  rewrite Hslice, drop_0, take_app_length in Hbefore.
  rewrite main_loop_for_each, Hslice, for_each_app.
  unfold bind at 1. rewrite Hbefore. simpl. unfold bind at 1.
  rewrite loop_body_updates by done. unfold bind at 1. by rewrite Hfail.
Qed.

Lemma main_loop_aborts_on_failed_update_witness :
  ∃ err st2,
    eligible ["home.example.com"] Scenario.addresses Scenario.home ∧
    main_loop Scenario.forbidden ["home.example.com"] Scenario.addresses
      "me@example.com" "secret"
      (mkState [] [] [Scenario.other; Scenario.home; Scenario.home] ∅)
      = (Fatal err, st2) ∧
    length (sent st2) = 1%nat.
Proof.
  assert (He : eligible ["home.example.com"] Scenario.addresses Scenario.home).
  { split; [left |]. exists "5.6.7.8". split; [reflexivity | discriminate]. }
  eexists _, _. split; [exact He |]. split.
  - apply (main_loop_aborts_on_failed_update Scenario.forbidden
             ["home.example.com"] Scenario.addresses "me@example.com" "secret"
             (mkState [] [] [Scenario.other; Scenario.home; Scenario.home] ∅)
             (skipped (mkState [] [] [Scenario.other; Scenario.home; Scenario.home] ∅)
                Scenario.other)
             _ [Scenario.other] [Scenario.home] Scenario.home _);
      [reflexivity | vm_compute; reflexivity | exact He | vm_compute; reflexivity].
  - reflexivity.
Defined.

(** *** Idempotence *)

Lemma in_sync_not_eligible syncNames addressSet (e : Entry) a :
  addressSet !! DnsRecordResponseEntry.Type_ e = Some a →
  DnsRecordResponseEntry.Content e = a →
  ¬ eligible syncNames addressSet e.
Proof. intros Ha Hc [_ (b & Hb & Hne)]. congruence. Qed.

Lemma synced_not_eligible syncNames addressSet (e : Entry) :
  ¬ eligible syncNames addressSet (synced syncNames addressSet e).
Proof.
  unfold synced. destruct (eligibleb_reflect syncNames addressSet e) as [Hy|Hn]; [| done].
  destruct Hy as [_ (a & Ha & _)].
  apply (in_sync_not_eligible _ _ _ a); simpl; [done |].
  unfold map_index. by rewrite Ha.
Qed.

Lemma for_each_nothing_to_do (W : World) dnsNames ipAddresses email key entries :
  Forall (λ e, ¬ eligible dnsNames ipAddresses e) entries →
  ∀ st,
    (for_each entries (loop_body W dnsNames ipAddresses email key) st).1 = Ret tt ∧
    sent (for_each entries (loop_body W dnsNames ipAddresses email key) st).2 = sent st ∧
    stdout (for_each entries (loop_body W dnsNames ipAddresses email key) st).2 = stdout st.
Proof.
  induction 1 as [|e rest Hn _ IH]; intros st; simpl; [done |].
  unfold bind. rewrite loop_body_skips by done. apply (IH (skipped st e)).
Qed.

(** C6: a record whose content already equals the address of its type gets
    no update, whatever the state of the run; and on the records obtained by
    setting the content of every eligible record to the address of its type,
    the loop runs to its end without sending or printing anything. *)
Theorem main_loop_idempotent (W : World) (dnsNames : list string)
    (ipAddresses : gmap string string) (email key : string) (st : State) :
  (∀ (e : Entry) (a : string) (s : State),
     ipAddresses !! DnsRecordResponseEntry.Type_ e = Some a →
     DnsRecordResponseEntry.Content e = a →
     loop_body W dnsNames ipAddresses email key e s = (Ret tt, skipped s e))
  ∧ instructions dnsNames ipAddresses
      (synced dnsNames ipAddresses <$> dnsRecordsResponses st) = []
  ∧ (main_loop W dnsNames ipAddresses email key
       (mkState (sent st) (stdout st)
          (synced dnsNames ipAddresses <$> dnsRecordsResponses st) (heap st))).1
    = Ret tt
  ∧ sent (main_loop W dnsNames ipAddresses email key
       (mkState (sent st) (stdout st)
          (synced dnsNames ipAddresses <$> dnsRecordsResponses st) (heap st))).2
    = sent st
  ∧ stdout (main_loop W dnsNames ipAddresses email key
       (mkState (sent st) (stdout st)
          (synced dnsNames ipAddresses <$> dnsRecordsResponses st) (heap st))).2
    = stdout st.
Proof.
  assert (Hall : Forall (λ e, ¬ eligible dnsNames ipAddresses e)
                   (synced dnsNames ipAddresses <$> dnsRecordsResponses st)).
  { apply Forall_fmap, Forall_forall. intros e _. apply synced_not_eligible. }
  split; [| split].
  - intros e a s Ha Hc. apply loop_body_skips. by apply (in_sync_not_eligible _ _ _ a).
  - unfold instructions.
    induction Hall as [|e rest Hn _ IH]; [done |].
    by rewrite filter_cons_False by (by rewrite eligibleb_true).
  - rewrite main_loop_for_each. cbn [dnsRecordsResponses].
    destruct (for_each_nothing_to_do W dnsNames ipAddresses email key _ Hall
                (mkState (sent st) (stdout st)
                   (synced dnsNames ipAddresses <$> dnsRecordsResponses st) (heap st)))
      as (Hret & Hsent & Hout).
    by rewrite Hret, Hsent, Hout.
Qed.

(** *** The fetched records are left alone *)

Lemma loop_body_heap (W : World) dnsNames ipAddresses email key (e : Entry) st :
  ∃ v, heap (loop_body W dnsNames ipAddresses email key e st).2 =
       <[fresh (dom (heap st)) := v]> (heap st).
Proof.
  destruct (eligibleb_reflect dnsNames ipAddresses e) as [Hy|Hn].
  - exists (overwritten ipAddresses e). rewrite loop_body_updates by done.
    change (<[fresh (dom (heap st)) := overwritten ipAddresses e]> (heap st))
      with (heap (announced ipAddresses st e)).
    apply keeps_bind; [apply keeps_updateDnsRecord; auto with frame |].
    intros [err|]; auto with frame.
  - exists (projection e). by rewrite loop_body_skips.
Qed.

Lemma fresh_unallocated (h : gmap loc DnsRecord.t) : h !! fresh (dom h) = None.
Proof. apply not_elem_of_dom, is_fresh. Qed.

Lemma loop_body_heap_grows (W : World) dnsNames ipAddresses email key (e : Entry) st :
  heap st ⊆ heap (loop_body W dnsNames ipAddresses email key e st).2.
Proof.
  destruct (loop_body_heap W dnsNames ipAddresses email key e st) as [v ->].
  apply insert_subseteq, fresh_unallocated.
Qed.

Lemma for_each_heap_grows (W : World) dnsNames ipAddresses email key entries : ∀ st,
  heap st ⊆ heap (for_each entries (loop_body W dnsNames ipAddresses email key) st).2.
Proof.
  induction entries as [|e rest IH]; intros st; simpl; [done |].
  unfold bind.
  pose proof (loop_body_heap_grows W dnsNames ipAddresses email key e st) as Hstep.
  destruct (loop_body W dnsNames ipAddresses email key e st) as [[v|msg|msg] st1];
    simpl in *; [| done | done].
  etrans; [exact Hstep | apply IH].
Qed.

(** C9: [CreateDnsRecordFrom] copies the five fields id, zone id, type, name
    and content into a location that was not allocated before and touches
    nothing else; an iteration of the loop changes the heap at that location
    only; and the whole loop, however it ends, leaves the fetched sequence
    as it was and every value allocated before it as it was. *)
Theorem main_loop_leaves_records_unchanged (W : World) (dnsNames : list string)
    (ipAddresses : gmap string string) (email key : string) (st : State) :
  (∀ (e : Entry) (s : State),
     heap s !! fresh (dom (heap s)) = None ∧
     CreateDnsRecordFrom e s =
       (Ret (fresh (dom (heap s))),
        mkState (sent s) (stdout s) (dnsRecordsResponses s)
          (<[fresh (dom (heap s)) :=
               DnsRecord.mk (DnsRecordResponseEntry.Id e)
                 (DnsRecordResponseEntry.ZoneId e)
                 (DnsRecordResponseEntry.Type_ e)
                 (DnsRecordResponseEntry.Name e)
                 (DnsRecordResponseEntry.Content e)]> (heap s))))
  ∧ (∀ (e : Entry) (s : State),
       dnsRecordsResponses (loop_body W dnsNames ipAddresses email key e s).2
         = dnsRecordsResponses s ∧
       ∀ q, q ≠ fresh (dom (heap s)) →
         heap (loop_body W dnsNames ipAddresses email key e s).2 !! q = heap s !! q)
  ∧ dnsRecordsResponses (main_loop W dnsNames ipAddresses email key st).2
      = dnsRecordsResponses st
  ∧ heap st ⊆ heap (main_loop W dnsNames ipAddresses email key st).2.
Proof.
  split; [| split; [| split]].
  - intros e s. split; [apply fresh_unallocated | reflexivity].
  - intros e s. split; [apply loop_body_keeps_slice |].
    intros q Hq.
    destruct (loop_body_heap W dnsNames ipAddresses email key e s) as [v ->].
    by rewrite lookup_insert_ne.
  - rewrite main_loop_for_each.
    apply (keeps_for_each dnsRecordsResponses). intros x. apply loop_body_keeps_slice.
  - rewrite main_loop_for_each. apply for_each_heap_grows.
Qed.

(** *** The empty sync name *)

Lemma stray_comma_empty_field (raw : string) :
  (∃ p, raw = p +:+ ",") ∨ (∃ p r, raw = p +:+ ",," +:+ r) →
  raw ≠ "" ∧ "" ∈ strings_Split_comma raw.
Proof.
  unfold strings_Split_comma.
  intros [[p ->]|(p & r & ->)]; split.
  - apply append_nonempty.
  - apply (split_byte_empty_field_trailing comma).
  - apply append_nonempty.
  - apply (split_byte_empty_field_adjacent comma).
Qed.



(** ** The address lookup *)

Section Lookup.

Variable W : World.

Lemma http_Get_sends version st :
  NewRequest_error W http_MethodGet ("https://" +:+ version +:+ ".icanhazip.com/") = None →
  http_Get W ("https://" +:+ version +:+ ".icanhazip.com/") st =
  (Ret (RoundTrip W (sent st) (echo_request version)),
   after_request st (echo_request version)).
Proof. intros Hurl. unfold http_Get, http_NewRequest. by rewrite Hurl. Qed.

(** A failed network call is reported. *)
Lemma getExternalIpAddress_network_error version st response err :
  NewRequest_error W http_MethodGet ("https://" +:+ version +:+ ".icanhazip.com/") = None →
  RoundTrip W (sent st) (echo_request version) = (response, Some err) →
  getExternalIpAddress W version st =
  (Ret ("", Some err), after_request st (echo_request version)).
Proof.
  intros Hurl Hdo. unfold getExternalIpAddress, bind.
  rewrite http_Get_sends by done. by rewrite Hdo.
Qed.

(** A 200 answer yields the trimmed body. *)
Lemma getExternalIpAddress_OK version st response bodyBytes :
  NewRequest_error W http_MethodGet ("https://" +:+ version +:+ ".icanhazip.com/") = None →
  RoundTrip W (sent st) (echo_request version) = (Some response, None) →
  StatusCode response = http_StatusOK →
  ReadAll (Body response) = (bodyBytes, None) →
  getExternalIpAddress W version st =
  (Ret (strings_TrimSpace W bodyBytes, None), after_request st (echo_request version)).
Proof.
  intros Hurl Hdo Hcode Hread. unfold getExternalIpAddress, bind.
  rewrite http_Get_sends by done. rewrite Hdo. unfold defer.
  rewrite Hcode, Z.eqb_refl, Hread. unfold ret, close_quietly.
  by destruct (Close (Body response)).
Qed.

(** Any other status yields the empty string and the nil error left in
    [err] by the call. *)
Lemma getExternalIpAddress_status_not_OK version st response :
  NewRequest_error W http_MethodGet ("https://" +:+ version +:+ ".icanhazip.com/") = None →
  RoundTrip W (sent st) (echo_request version) = (Some response, None) →
  StatusCode response ≠ http_StatusOK →
  getExternalIpAddress W version st =
  (Ret ("", None), after_request st (echo_request version)).
Proof.
  intros Hurl Hdo Hcode. unfold getExternalIpAddress, bind.
  rewrite http_Get_sends by done. rewrite Hdo. unfold defer.
  apply Z.eqb_neq in Hcode. rewrite Hcode. unfold ret, close_quietly.
  by destruct (Close (Body response)).
Qed.

End Lookup.

(** C2, as the code has it: a failed network call is returned as an error,
    but when the echo answers with a status other than 200,
    [getExternalIpAddress] returns the empty string with a nil error. *)
Theorem getExternalIpAddress_non_200 (W : World) (version : string) (st : State) :
  NewRequest_error W http_MethodGet ("https://" +:+ version +:+ ".icanhazip.com/") = None →
  (∀ response err,
     RoundTrip W (sent st) (echo_request version) = (response, Some err) →
     getExternalIpAddress W version st =
     (Ret ("", Some err), after_request st (echo_request version)))
  ∧
  (∀ response,
     RoundTrip W (sent st) (echo_request version) = (Some response, None) →
     StatusCode response ≠ http_StatusOK →
     getExternalIpAddress W version st =
     (Ret ("", None), after_request st (echo_request version))).
Proof.
  intros Hurl. split.
  - intros response err Hdo.
    by apply (getExternalIpAddress_network_error W version st response err).
  - intros response Hdo Hcode.
    by apply (getExternalIpAddress_status_not_OK W version st response).
Qed.

Lemma getExternalIpAddress_non_200_witness :
  getExternalIpAddress Scenario.failing_ipv6 "ipv6" Scenario.start =
  (Ret ("", None), after_request Scenario.start (echo_request "ipv6")).
Proof.
  destruct (getExternalIpAddress_non_200 Scenario.failing_ipv6 "ipv6" Scenario.start)
    as [_ Hstatus]; [reflexivity |].
  apply (Hstatus (Scenario.answer 500 "500 Internal Server Error" "echo unavailable"));
    [reflexivity | discriminate].
Defined.

(** C4, as the code has it: when the ipv4 echo answers 200 and the ipv6 echo
    answers with another status, [getExternalIpAddresses] still returns a
    map, with the empty string under AAAA. *)
Theorem getExternalIpAddresses_after_non_200 (W : World) (st : State)
    (response4 response6 : Response) (body4 : string) :
  NewRequest_error W http_MethodGet "https://ipv4.icanhazip.com/" = None →
  NewRequest_error W http_MethodGet "https://ipv6.icanhazip.com/" = None →
  RoundTrip W (sent st) (echo_request "ipv4") = (Some response4, None) →
  StatusCode response4 = http_StatusOK →
  ReadAll (Body response4) = (body4, None) →
  RoundTrip W (sent st ++ [echo_request "ipv4"]) (echo_request "ipv6")
    = (Some response6, None) →
  StatusCode response6 ≠ http_StatusOK →
  getExternalIpAddresses W st =
  (Ret (Some {[ A := strings_TrimSpace W body4; AAAA := "" ]}, None),
   after_request (after_request st (echo_request "ipv4")) (echo_request "ipv6")).
Proof.
  intros Hurl4 Hurl6 Hdo4 Hcode4 Hread4 Hdo6 Hcode6.
  unfold getExternalIpAddresses, bind.
  rewrite (getExternalIpAddress_OK W "ipv4" st response4 body4) by done.
  by rewrite (getExternalIpAddress_status_not_OK W "ipv6" _ response6).
Qed.

Lemma getExternalIpAddresses_after_non_200_witness :
  ∃ st',
    getExternalIpAddresses Scenario.failing_ipv6 Scenario.start =
    (Ret (Some {[ A := "5.6.7.8"; AAAA := "" ]}, None), st').
Proof.
  eexists.
  apply (getExternalIpAddresses_after_non_200 Scenario.failing_ipv6 Scenario.start
           (Scenario.answer 200 "200 OK" ("5.6.7.8" +:+ LF))
           (Scenario.answer 500 "500 Internal Server Error" "echo unavailable")
           ("5.6.7.8" +:+ LF));
    [reflexivity | reflexivity | reflexivity | reflexivity | reflexivity
    | reflexivity | discriminate].
Defined.

Section Resolve.

Variable W : World.

(** The parts of the address resolution that hold: both echoes answering 200
    give the two-entry map of the trimmed bodies, and a failed network call
    on either family gives no map. *)
Lemma getExternalIpAddresses_both_OK st response4 response6 body4 body6 :
  NewRequest_error W http_MethodGet "https://ipv4.icanhazip.com/" = None →
  NewRequest_error W http_MethodGet "https://ipv6.icanhazip.com/" = None →
  RoundTrip W (sent st) (echo_request "ipv4") = (Some response4, None) →
  StatusCode response4 = http_StatusOK →
  ReadAll (Body response4) = (body4, None) →
  RoundTrip W (sent st ++ [echo_request "ipv4"]) (echo_request "ipv6")
    = (Some response6, None) →
  StatusCode response6 = http_StatusOK →
  ReadAll (Body response6) = (body6, None) →
  getExternalIpAddresses W st =
  (Ret (Some {[ A := strings_TrimSpace W body4; AAAA := strings_TrimSpace W body6 ]},
        None),
   after_request (after_request st (echo_request "ipv4")) (echo_request "ipv6")).
Proof.
  intros Hurl4 Hurl6 Hdo4 Hcode4 Hread4 Hdo6 Hcode6 Hread6.
  unfold getExternalIpAddresses, bind.
  rewrite (getExternalIpAddress_OK W "ipv4" st response4 body4) by done.
  by rewrite (getExternalIpAddress_OK W "ipv6" _ response6 body6).
Qed.

Lemma getExternalIpAddresses_ipv4_network_error st response err :
  NewRequest_error W http_MethodGet "https://ipv4.icanhazip.com/" = None →
  RoundTrip W (sent st) (echo_request "ipv4") = (response, Some err) →
  getExternalIpAddresses W st =
  (Ret (None, Some err), after_request st (echo_request "ipv4")).
Proof.
  intros Hurl Hdo. unfold getExternalIpAddresses, bind.
  by rewrite (getExternalIpAddress_network_error W "ipv4" st response err).
Qed.

Lemma getExternalIpAddresses_ipv6_network_error st response4 body4 response err :
  NewRequest_error W http_MethodGet "https://ipv4.icanhazip.com/" = None →
  NewRequest_error W http_MethodGet "https://ipv6.icanhazip.com/" = None →
  RoundTrip W (sent st) (echo_request "ipv4") = (Some response4, None) →
  StatusCode response4 = http_StatusOK →
  ReadAll (Body response4) = (body4, None) →
  RoundTrip W (sent st ++ [echo_request "ipv4"]) (echo_request "ipv6")
    = (response, Some err) →
  getExternalIpAddresses W st =
  (Ret (None, Some err),
   after_request (after_request st (echo_request "ipv4")) (echo_request "ipv6")).
Proof.
  intros Hurl4 Hurl6 Hdo4 Hcode4 Hread4 Hdo6.
  unfold getExternalIpAddresses, bind.
  rewrite (getExternalIpAddress_OK W "ipv4" st response4 body4) by done.
  by rewrite (getExternalIpAddress_network_error W "ipv6" _ response err).
Qed.

End Resolve.

(** ** The record fetch *)

Section Fetch.

Variable W : World.

(** An answer whose body does not decode is reported as an error. *)
Lemma getDnsRecords_decode_error zone email key st response err body readErr decoded decodeErr :
  NewRequest_error W http_MethodGet (CLOUDFLARE +:+ zone +:+ "/dns_records") = None →
  RoundTrip W (sent st) (list_request zone email key) = (Some response, err) →
  ReadAll (Body response) = (body, readErr) →
  Close (Body response) = None →
  json_Unmarshal W body = (decoded, Some decodeErr) →
  getDnsRecords W zone email key st =
  (Ret ([], Some decodeErr), after_request st (list_request zone email key)).
Proof.
  intros Hurl Hdo Hread Hclose Hdecode.
  unfold getDnsRecords, http_NewRequest. rewrite Hurl. unfold bind. simpl.
  change (set_Header _ _) with (list_request zone email key).
  rewrite Hdo. unfold defer.
  rewrite Hread, Hdecode. unfold ret, close_or_Fatal. by rewrite Hclose.
Qed.

(** An answer whose body decodes yields the decoded sequence as it is. *)
Lemma getDnsRecords_verbatim zone email key st response err body readErr decoded :
  NewRequest_error W http_MethodGet (CLOUDFLARE +:+ zone +:+ "/dns_records") = None →
  RoundTrip W (sent st) (list_request zone email key) = (Some response, err) →
  ReadAll (Body response) = (body, readErr) →
  Close (Body response) = None →
  json_Unmarshal W body = (decoded, None) →
  getDnsRecords W zone email key st =
  (Ret (DnsRecordsResponse.Result decoded, None),
   after_request st (list_request zone email key)).
Proof.
  intros Hurl Hdo Hread Hclose Hdecode.
  unfold getDnsRecords, http_NewRequest. rewrite Hurl. unfold bind. simpl.
  change (set_Header _ _) with (list_request zone email key).
  rewrite Hdo. unfold defer.
  rewrite Hread, Hdecode. unfold ret, close_or_Fatal. by rewrite Hclose.
Qed.

End Fetch.

(** C3, as the code has it: when the transport fails and hands back no
    response, [getDnsRecords] does not return an error: it panics on the nil
    response while setting up the deferred close. *)
Theorem getDnsRecords_transport_failure (W : World) (zone email key : string)
    (st : State) (err : error) :
  NewRequest_error W http_MethodGet (CLOUDFLARE +:+ zone +:+ "/dns_records") = None →
  RoundTrip W (sent st) (list_request zone email key) = (None, Some err) →
  getDnsRecords W zone email key st =
  (Panic nil_dereference, after_request st (list_request zone email key)).
Proof.
  intros Hurl Hdo.
  unfold getDnsRecords, http_NewRequest. rewrite Hurl. unfold bind. simpl.
  change (set_Header _ _) with (list_request zone email key).
  by rewrite Hdo.
Qed.

Lemma getDnsRecords_transport_failure_witness :
  getDnsRecords Scenario.unreachable "z1" "me@example.com" "secret" Scenario.start =
  (Panic nil_dereference,
   after_request Scenario.start (list_request "z1" "me@example.com" "secret")).
Proof.
  apply (getDnsRecords_transport_failure Scenario.unreachable
           "z1" "me@example.com" "secret" Scenario.start
           "dial tcp: connection refused");
    reflexivity.
Defined.

(** ** The record update *)

(** C5, counterexample: the provider answers 200 and the body breaks off
    while it is read; the call returns the read error. *)
Lemma updateDnsRecord_fails_on_200 :
  ¬ fails_iff_status_not_OK Scenario.truncated (projection Scenario.home)
      "me@example.com" "secret" Scenario.start.
Proof.
  intros Hiff.
  destruct (Hiff (mkResponse "200 OK" 200
                      (mkReadCloser ("", Some "unexpected EOF") None)) eq_refl)
    as [Hfails _].
  apply Hfails; [| reflexivity].
  eexists _, _. vm_compute. reflexivity.
Qed.

(** C5, amended: once the request has been built and answered, the body has
    been read to its end and closed, [updateDnsRecord] returns an error
    exactly when the status is not 200; the error text is then the marshalled
    payload, the response status and the body, in that layout; with status
    200 it returns nil. *)
Theorem updateDnsRecord_answered (W : World) (record : DnsRecord.t)
    (email key : string) (st : State) (response : Response) (bodyBytes : string) :
  NewRequest_error W http_MethodPatch
    (CLOUDFLARE +:+ DnsRecord.ZoneId record +:+ "/dns_records/" +:+ DnsRecord.Id record)
    = None →
  RoundTrip W (sent st) (patch_request W email key (instruction_of record))
    = (Some response, None) →
  ReadAll (Body response) = (bodyBytes, None) →
  Close (Body response) = None →
  (StatusCode response ≠ http_StatusOK ∧
   updateDnsRecord W record email key st =
     (Ret (Some (update_error_text W record response bodyBytes)),
      after_request st (patch_request W email key (instruction_of record))))
  ∨
  (StatusCode response = http_StatusOK ∧
   updateDnsRecord W record email key st =
     (Ret None,
      after_request st (patch_request W email key (instruction_of record)))).
Proof.
  intros Hurl Hdo Hread Hclose.
  unfold updateDnsRecord, http_NewRequest. rewrite Hurl. unfold bind. simpl.
  change (set_Header _ _) with (patch_request W email key (instruction_of record)).
  rewrite Hdo. unfold defer. rewrite Hread.
  destruct (Z.eqb_spec (StatusCode response) http_StatusOK) as [Heq|Hne]; simpl;
    unfold close_or_Fatal; rewrite Hclose; [right | left]; by split.
Qed.

Lemma updateDnsRecord_answered_witness :
  updateDnsRecord Scenario.forbidden (projection Scenario.home)
    "me@example.com" "secret" Scenario.start =
  (Ret (Some ("Could not update DNS record "
                +:+ Scenario.marshal {[ "content" := "1.2.3.4" ]} +:+ LF
                +:+ "Response status: 403 Forbidden" +:+ LF +:+ "forbidden")),
   after_request Scenario.start
     (patch_request Scenario.forbidden "me@example.com" "secret"
        (mkUpdateInstruction "r1" "z1" "1.2.3.4"))).
Proof.
  destruct (updateDnsRecord_answered Scenario.forbidden (projection Scenario.home)
              "me@example.com" "secret" Scenario.start
              (Scenario.answer 403 "403 Forbidden" "forbidden") "forbidden")
    as [[_ Hrun]|[Hcode _]];
    [reflexivity | reflexivity | reflexivity | reflexivity | exact Hrun
    | discriminate Hcode].
Defined.

(** * Further properties of the code *)

(** ** Names *)

(** X1: [contains] is membership by exact equality: it answers true exactly
    when the value is an element of the list, so that two lists with the
    same elements, in any order and multiplicity, give the same answer. *)
Theorem contains_exact_membership (names names' : list string) (value : string) :
  (contains names value = true ↔ value ∈ names) ∧
  ((∀ x, x ∈ names ↔ x ∈ names') → contains names value = contains names' value) ∧
  contains (names ++ names') value = (contains names value || contains names' value).
Proof.
  split; [apply contains_elem_of |]. split.
  - intros Hsame.
    destruct (contains names value) eqn:H1, (contains names' value) eqn:H2; try done.
    + apply contains_elem_of, Hsame, contains_elem_of in H1. congruence.
    + apply contains_elem_of, Hsame, contains_elem_of in H2. congruence.
  - induction names as [|item rest IH]; simpl; [done |].
    by destruct (String.eqb item value).
Qed.

Lemma join_split_byte sep (s : string) : join_byte sep (split_byte sep s) = s.
Proof.
  induction s as [|c rest IH]; simpl; [done |].
  pose proof (split_byte_nonempty sep rest) as Hne.
  destruct (Ascii.eqb_spec c sep) as [->|_].
  - destruct (split_byte sep rest) as [|field fields]; [done |].
    change (join_byte sep ("" :: field :: fields))
      with (String sep (join_byte sep (field :: fields))).
    by rewrite IH.
  - destruct (split_byte sep rest) as [|field fields]; [done |].
    rewrite <- IH. by destruct fields.
Qed.

Lemma split_byte_fields_free sep (s : string) :
  Forall (λ field, occurs sep field = false) (split_byte sep s).
Proof.
  induction s as [|c rest IH]; simpl.
  - by repeat constructor.
  - destruct (Ascii.eqb c sep) eqn:Hc; [by constructor |].
    destruct (split_byte sep rest) as [|field fields]; simpl.
    + repeat constructor. simpl. by rewrite Hc.
    + inversion IH as [|? ? Hfield Hfields]; subst.
      constructor; [| done]. simpl. by rewrite Hc.
Qed.

Lemma split_byte_length sep (s : string) :
  length (split_byte sep s) = S (count_byte sep s).
Proof.
  induction s as [|c rest IH]; simpl; [done |].
  destruct (Ascii.eqb c sep); simpl; [by rewrite IH |].
  pose proof (split_byte_nonempty sep rest) as Hne.
  destruct (split_byte sep rest); [done | exact IH].
Qed.

(** X2: the parsed names are the pieces of the raw input between its
    commas, untouched: joining them with commas gives the input back, no
    name contains a comma, and there is one name more than there are
    commas (so never an empty list). *)
Theorem strings_Split_comma_pieces (raw : string) :
  join_byte comma (strings_Split_comma raw) = raw ∧
  Forall (λ name, occurs comma name = false) (strings_Split_comma raw) ∧
  length (strings_Split_comma raw) = S (count_byte comma raw).
Proof.
  unfold strings_Split_comma.
  split; [apply join_split_byte |].
  split; [apply split_byte_fields_free | apply split_byte_length].
Qed.

(** X3: a record whose name contains a comma can never be named by the
    names flag: whatever the raw input, the loop skips it. *)
Theorem name_with_comma_never_updated (W : World) (raw : string)
    (ipAddresses : gmap string string) (email key : string) (e : Entry) (st : State) :
  occurs comma (DnsRecordResponseEntry.Name e) = true →
  contains (strings_Split_comma raw) (DnsRecordResponseEntry.Name e) = false ∧
  loop_body W (strings_Split_comma raw) ipAddresses email key e st
    = (Ret tt, skipped st e).
Proof.
  intros Hcomma.
  assert (Hout : DnsRecordResponseEntry.Name e ∉ strings_Split_comma raw).
  { intros Hin.
    pose proof (split_byte_fields_free comma raw) as Hfree.
    rewrite Forall_forall in Hfree. specialize (Hfree _ Hin). congruence. }
  split.
  - destruct (contains _ _) eqn:Hc; [| done]. by apply contains_elem_of in Hc.
  - apply loop_body_skips. intros [Hin _]. done.
Qed.

Lemma name_with_comma_never_updated_witness :
  loop_body Scenario.accepting (strings_Split_comma "a,b.example.com")
    Scenario.addresses "me@example.com" "secret"
    (Scenario.record "r7" "a,b.example.com" "A" "1.2.3.4") Scenario.start
  = (Ret tt, skipped Scenario.start (Scenario.record "r7" "a,b.example.com" "A" "1.2.3.4")).
Proof.
  apply (name_with_comma_never_updated Scenario.accepting "a,b.example.com"
           Scenario.addresses "me@example.com" "secret"
           (Scenario.record "r7" "a,b.example.com" "A" "1.2.3.4") Scenario.start).
  reflexivity.
Defined.

(** ** The address lookup, in every case *)

Section LookupCases.

Variable W : World.

Lemma keeps_http_Get {X} (f : State → X) url :
  off_network f → keeps f (http_Get W url).
Proof.
  intros Hf. unfold http_Get.
  destruct (http_NewRequest W _ _ _) as [[request|] [err|]]; auto with frame.
  by apply keeps_client_Do.
Qed.

Lemma keeps_getExternalIpAddress {X} (f : State → X) version :
  off_network f → keeps f (getExternalIpAddress W version).
Proof.
  intros Hf. unfold getExternalIpAddress.
  apply keeps_bind; [by apply keeps_http_Get |].
  intros [[response|] [err|]]; auto with frame.
  apply keeps_defer.
  - unfold close_quietly. destruct (Close (Body response)); auto with frame.
  - destruct (_ =? _)%Z; auto with frame.
    destruct (ReadAll (Body response)) as [bodyBytes [err|]]; auto with frame.
Qed.

Lemma keeps_getExternalIpAddresses {X} (f : State → X) :
  off_network f → keeps f (getExternalIpAddresses W).
Proof.
  intros Hf. unfold getExternalIpAddresses.
  apply keeps_bind; [by apply keeps_getExternalIpAddress |].
  intros [ipv4 [err|]]; auto with frame.
  apply keeps_bind; [by apply keeps_getExternalIpAddress |].
  intros [ipv6 [err|]]; auto with frame.
Qed.

(** One lookup sends its request, or is refused before sending and returns
    the error. *)
Lemma getExternalIpAddress_sent version st :
  (∃ err, getExternalIpAddress W version st = (Ret ("", Some err), st)) ∨
  sent (getExternalIpAddress W version st).2 = sent st ++ [echo_request version].
Proof.
  unfold getExternalIpAddress, bind, http_Get, http_NewRequest.
  destruct (NewRequest_error W _ _) as [err|]; [left; by exists err |].
  right. fold (echo_request version). unfold client_Do. simpl.
  destruct (RoundTrip W _ _) as [[response|] [err|]]; try done.
  unfold defer, close_quietly.
  destruct (_ =? _)%Z;
    [destruct (ReadAll (Body response)) as [bodyBytes [err|]] |];
    by destruct (Close (Body response)).
Qed.

(** What [getExternalIpAddresses] can return: a map with both entries and a
    nil error, or no map and an error. *)
Lemma getExternalIpAddresses_returns st m err st' :
  getExternalIpAddresses W st = (Ret (m, err), st') →
  (∃ ipv4 ipv6, m = Some {[ A := ipv4; AAAA := ipv6 ]} ∧ err = None) ∨
  (m = None ∧ ∃ e, err = Some e).
Proof.
  unfold getExternalIpAddresses, bind.
  destruct (getExternalIpAddress W "ipv4" st) as [[[ipv4 [e4|]]|msg|msg] st1];
    try (intros [= <- <- <-]; right; eauto; fail); try done.
  destruct (getExternalIpAddress W "ipv6" st1) as [[[ipv6 [e6|]]|msg|msg] st2];
    try (intros [= <- <- <-]; right; eauto; fail); try done.
  intros [= <- <- <-]. left. eauto.
Qed.

(** The requests of the whole lookup. *)
Lemma getExternalIpAddresses_sent st :
  sent (getExternalIpAddresses W st).2 = sent st ∨
  sent (getExternalIpAddresses W st).2 = sent st ++ [echo_request "ipv4"] ∨
  sent (getExternalIpAddresses W st).2 =
    sent st ++ [echo_request "ipv4"; echo_request "ipv6"].
Proof.
  unfold getExternalIpAddresses, bind.
  destruct (getExternalIpAddress_sent "ipv4" st) as [[err H4]|H4].
  { rewrite H4. by left. }
  destruct (getExternalIpAddress W "ipv4" st) as [[[ipv4 [e4|]]|msg|msg] st1];
    simpl in H4; try (right; by left).
  destruct (getExternalIpAddress_sent "ipv6" st1) as [[err H6]|H6].
  { rewrite H6. right; by left. }
  right; right.
  destruct (getExternalIpAddress W "ipv6" st1) as [[[ipv6 [e6|]]|msg|msg] st2];
    simpl in *; by rewrite H6, H4, <- app_assoc.
Qed.

End LookupCases.

(** X4: when [getExternalIpAddresses] returns, it returns either a map and
    a nil error or no map and an error, never both and never neither; a
    returned map has exactly the keys A and AAAA. *)
Theorem getExternalIpAddresses_map_or_error (W : World) (st st' : State)
    (m : option (gmap string string)) (err : option error) :
  getExternalIpAddresses W st = (Ret (m, err), st') →
  (∃ addresses, m = Some addresses ∧ err = None ∧ dom addresses = {[ A; AAAA ]}) ∨
  (m = None ∧ err ≠ None).
Proof.
  intros Hrun.
  destruct (getExternalIpAddresses_returns W st m err st' Hrun)
    as [(ipv4 & ipv6 & -> & ->)|[-> [e ->]]].
  - left. eexists. split; [done |]. split; [done |].
    rewrite dom_insert_L, dom_singleton_L. done.
  - right. done.
Qed.

Lemma getExternalIpAddresses_map_or_error_witness :
  ∃ addresses : gmap string string,
    dom addresses = {[ A; AAAA ]} ∧
    (getExternalIpAddresses Scenario.failing_ipv6 Scenario.start).1
      = Ret (Some addresses, None).
Proof.
  destruct (getExternalIpAddresses_map_or_error Scenario.failing_ipv6
              Scenario.start
              (getExternalIpAddresses Scenario.failing_ipv6 Scenario.start).2
              (Some {[ A := "5.6.7.8"; AAAA := "" ]}) None)
    as [(addresses & Hm & _ & Hdom)|[Hm _]];
    [vm_compute; reflexivity | | discriminate Hm].
  exists addresses. split; [exact Hdom |].
  injection Hm as <-. vm_compute. reflexivity.
Defined.

(** X5: with the address map the lookup returns, only records of type A or
    AAAA can be updated: the loop skips a record of any other type, whatever
    the sync names and the record's content. *)
Theorem other_record_types_never_updated (W : World) (st0 st1 st : State)
    (addresses : gmap string string) (err : option error)
    (dnsNames : list string) (email key : string) (e : Entry) :
  getExternalIpAddresses W st0 = (Ret (Some addresses, err), st1) →
  DnsRecordResponseEntry.Type_ e ≠ A →
  DnsRecordResponseEntry.Type_ e ≠ AAAA →
  loop_body W dnsNames addresses email key e st = (Ret tt, skipped st e).
Proof.
  intros Hrun HA HAAAA.
  destruct (getExternalIpAddresses_returns W st0 _ _ _ Hrun)
    as [(ipv4 & ipv6 & [= ->] & _)|[[=] _]].
  apply loop_body_skips. intros [_ (a & Ha & _)].
  rewrite lookup_insert_ne in Ha by done.
  by rewrite lookup_singleton_ne in Ha.
Qed.

Lemma other_record_types_never_updated_witness :
  loop_body Scenario.accepting ["mail.example.com"]
    {[ A := "5.6.7.8"; AAAA := "5.6.7.8" ]} "me@example.com" "secret"
    (Scenario.record "r8" "mail.example.com" "MX" "1.2.3.4") Scenario.start
  = (Ret tt,
     skipped Scenario.start (Scenario.record "r8" "mail.example.com" "MX" "1.2.3.4")).
Proof.
  apply (other_record_types_never_updated Scenario.accepting Scenario.start
           (getExternalIpAddresses Scenario.accepting Scenario.start).2
           Scenario.start {[ A := "5.6.7.8"; AAAA := "5.6.7.8" ]} None
           ["mail.example.com"] "me@example.com" "secret"
           (Scenario.record "r8" "mail.example.com" "MX" "1.2.3.4"));
    [vm_compute; reflexivity | discriminate | discriminate].
Defined.

(** X6: the lookup talks to the echo service only: it sends nothing, or the
    ipv4 request, or the ipv4 request followed by the ipv6 request, and it
    leaves standard output, the fetched records and the heap as they were. *)
Theorem getExternalIpAddresses_requests (W : World) (st : State) :
  (sent (getExternalIpAddresses W st).2 = sent st ∨
   sent (getExternalIpAddresses W st).2 = sent st ++ [echo_request "ipv4"] ∨
   sent (getExternalIpAddresses W st).2 =
     sent st ++ [echo_request "ipv4"; echo_request "ipv6"]) ∧
  stdout (getExternalIpAddresses W st).2 = stdout st ∧
  dnsRecordsResponses (getExternalIpAddresses W st).2 = dnsRecordsResponses st ∧
  heap (getExternalIpAddresses W st).2 = heap st.
Proof.
  split; [apply getExternalIpAddresses_sent |].
  repeat split; apply keeps_getExternalIpAddresses; auto with frame.
Qed.

(** X7: when an echo answers 200 and reading its body fails, the lookup
    does not return the error: the process exits through [log.Fatal] with
    it, whether or not the body then closes. *)
Theorem getExternalIpAddress_read_error_exits (W : World) (version : string)
    (st : State) (response : Response) (partial : string) (err : error) :
  NewRequest_error W http_MethodGet ("https://" +:+ version +:+ ".icanhazip.com/") = None →
  RoundTrip W (sent st) (echo_request version) = (Some response, None) →
  StatusCode response = http_StatusOK →
  ReadAll (Body response) = (partial, Some err) →
  getExternalIpAddress W version st =
  (Fatal err, after_request st (echo_request version)).
Proof.
  intros Hurl Hdo Hcode Hread. unfold getExternalIpAddress, bind.
  rewrite http_Get_sends by done. rewrite Hdo. unfold defer.
  by rewrite Hcode, Z.eqb_refl, Hread.
Qed.

Lemma getExternalIpAddress_read_error_exits_witness :
  getExternalIpAddress Scenario.truncated "ipv4" Scenario.start =
  (Fatal "unexpected EOF", after_request Scenario.start (echo_request "ipv4")).
Proof.
  apply (getExternalIpAddress_read_error_exits Scenario.truncated "ipv4"
           Scenario.start
           (mkResponse "200 OK" 200 (mkReadCloser ("", Some "unexpected EOF") None))
           "" "unexpected EOF");
    reflexivity.
Defined.

(** ** The record update, in every case *)

(** X8: the errors [updateDnsRecord] returns before it looks at the status.
    A request that cannot be built is reported with nothing sent; a
    transport error is reported once the request has been sent; an error
    while reading the body is reported whatever the status of the answer. *)
Theorem updateDnsRecord_early_errors (W : World) (record : DnsRecord.t)
    (email key : string) (st : State) :
  (∀ err,
     NewRequest_error W http_MethodPatch
       (CLOUDFLARE +:+ DnsRecord.ZoneId record +:+ "/dns_records/" +:+ DnsRecord.Id record)
       = Some err →
     updateDnsRecord W record email key st = (Ret (Some err), st))
  ∧
  (NewRequest_error W http_MethodPatch
     (CLOUDFLARE +:+ DnsRecord.ZoneId record +:+ "/dns_records/" +:+ DnsRecord.Id record)
     = None →
   (∀ response err,
      RoundTrip W (sent st) (patch_request W email key (instruction_of record))
        = (response, Some err) →
      updateDnsRecord W record email key st =
      (Ret (Some err),
       after_request st (patch_request W email key (instruction_of record))))
   ∧
   (∀ response partial err,
      RoundTrip W (sent st) (patch_request W email key (instruction_of record))
        = (Some response, None) →
      ReadAll (Body response) = (partial, Some err) →
      Close (Body response) = None →
      updateDnsRecord W record email key st =
      (Ret (Some err),
       after_request st (patch_request W email key (instruction_of record))))).
Proof.
  split.
  - intros err Hurl. unfold updateDnsRecord, http_NewRequest. by rewrite Hurl.
  - intros Hurl. split.
    + intros response err Hdo.
      unfold updateDnsRecord, http_NewRequest. rewrite Hurl. unfold bind. simpl.
      change (set_Header _ _) with (patch_request W email key (instruction_of record)).
      by rewrite Hdo.
    + intros response partial err Hdo Hread Hclose.
      unfold updateDnsRecord, http_NewRequest. rewrite Hurl. unfold bind. simpl.
      change (set_Header _ _) with (patch_request W email key (instruction_of record)).
      rewrite Hdo. unfold defer. rewrite Hread. unfold ret, close_or_Fatal.
      by rewrite Hclose.
Qed.

Lemma updateDnsRecord_early_errors_witness :
  updateDnsRecord Scenario.unreachable (projection Scenario.home)
    "me@example.com" "secret" Scenario.start =
  (Ret (Some "dial tcp: connection refused"),
   after_request Scenario.start
     (patch_request Scenario.unreachable "me@example.com" "secret"
        (mkUpdateInstruction "r1" "z1" "1.2.3.4"))) ∧
  updateDnsRecord Scenario.truncated (projection Scenario.home)
    "me@example.com" "secret" Scenario.start =
  (Ret (Some "unexpected EOF"),
   after_request Scenario.start
     (patch_request Scenario.truncated "me@example.com" "secret"
        (mkUpdateInstruction "r1" "z1" "1.2.3.4"))).
Proof.
  split.
  - destruct (updateDnsRecord_early_errors Scenario.unreachable
                (projection Scenario.home) "me@example.com" "secret" Scenario.start)
      as [_ Hsent].
    destruct (Hsent eq_refl) as [Htransport _].
    apply (Htransport None "dial tcp: connection refused"). reflexivity.
  - destruct (updateDnsRecord_early_errors Scenario.truncated
                (projection Scenario.home) "me@example.com" "secret" Scenario.start)
      as [_ Hsent].
    destruct (Hsent eq_refl) as [_ Hread].
    apply (Hread (mkResponse "200 OK" 200
                    (mkReadCloser ("", Some "unexpected EOF") None))
             "" "unexpected EOF"); reflexivity.
Defined.

(** X9: when the provider has answered and closing the body fails, the
    process exits through [log.Fatal] with the close error, whatever the
    status and the body were: an accepted update ends the run, and the
    error text of a refused one is lost. *)
Theorem updateDnsRecord_close_error_exits (W : World) (record : DnsRecord.t)
    (email key : string) (st : State) (response : Response) (err : error) :
  NewRequest_error W http_MethodPatch
    (CLOUDFLARE +:+ DnsRecord.ZoneId record +:+ "/dns_records/" +:+ DnsRecord.Id record)
    = None →
  RoundTrip W (sent st) (patch_request W email key (instruction_of record))
    = (Some response, None) →
  Close (Body response) = Some err →
  updateDnsRecord W record email key st =
  (Fatal err, after_request st (patch_request W email key (instruction_of record))).
Proof.
  intros Hurl Hdo Hclose.
  unfold updateDnsRecord, http_NewRequest. rewrite Hurl. unfold bind. simpl.
  change (set_Header _ _) with (patch_request W email key (instruction_of record)).
  rewrite Hdo. unfold defer, close_or_Fatal. rewrite Hclose.
  destruct (ReadAll (Body response)) as [bodyBytes [readErr|]]; [done |].
  by destruct (negb _).
Qed.

Lemma updateDnsRecord_close_error_exits_witness :
  updateDnsRecord Scenario.closing_fails (projection Scenario.home)
    "me@example.com" "secret" Scenario.start =
  (Fatal "close failed",
   after_request Scenario.start
     (patch_request Scenario.closing_fails "me@example.com" "secret"
        (mkUpdateInstruction "r1" "z1" "1.2.3.4"))).
Proof.
  apply (updateDnsRecord_close_error_exits Scenario.closing_fails
           (projection Scenario.home) "me@example.com" "secret" Scenario.start
           (mkResponse "200 OK" 200
              (mkReadCloser ("done", None) (Some "close failed")))
           "close failed");
    reflexivity.
Defined.

(** X10: [updateDnsRecord] uses the id, the zone id and the content of its
    argument and nothing else: two records that agree on these three fields
    give the same run; and the call leaves standard output, the fetched
    records and the heap as they were. *)
Theorem updateDnsRecord_reads_three_fields (W : World) (record record' : DnsRecord.t)
    (email key : string) (st : State) :
  instruction_of record = instruction_of record' →
  updateDnsRecord W record email key st = updateDnsRecord W record' email key st ∧
  stdout (updateDnsRecord W record email key st).2 = stdout st ∧
  dnsRecordsResponses (updateDnsRecord W record email key st).2 = dnsRecordsResponses st ∧
  heap (updateDnsRecord W record email key st).2 = heap st.
Proof.
  intros Hsame. split.
  - destruct record, record'. unfold instruction_of in Hsame. simpl in Hsame.
    injection Hsame as -> -> ->. reflexivity.
  - repeat split; apply keeps_updateDnsRecord; auto with frame.
Qed.

Lemma updateDnsRecord_reads_three_fields_witness :
  updateDnsRecord Scenario.forbidden (projection Scenario.home)
    "me@example.com" "secret" Scenario.start =
  updateDnsRecord Scenario.forbidden
    (DnsRecord.mk "r1" "z1" "TXT" "elsewhere.example.com" "1.2.3.4")
    "me@example.com" "secret" Scenario.start.
Proof.
  apply (updateDnsRecord_reads_three_fields Scenario.forbidden
           (projection Scenario.home)
           (DnsRecord.mk "r1" "z1" "TXT" "elsewhere.example.com" "1.2.3.4")
           "me@example.com" "secret" Scenario.start).
  reflexivity.
Defined.

(** ** The record fetch, in every case *)

(** X11: once the listing request has been answered and the body closes,
    [getDnsRecords] decides on the decoding of the bytes read and on nothing
    else: the status of the answer, an error returned with the answer and an
    error while reading are all ignored. *)
Theorem getDnsRecords_decides_on_decoding (W : World) (zone email key : string)
    (st : State) (response : Response) (err readErr : option error) (body : string) :
  NewRequest_error W http_MethodGet (CLOUDFLARE +:+ zone +:+ "/dns_records") = None →
  RoundTrip W (sent st) (list_request zone email key) = (Some response, err) →
  ReadAll (Body response) = (body, readErr) →
  Close (Body response) = None →
  getDnsRecords W zone email key st =
  (Ret (match json_Unmarshal W body with
        | (decoded, None) => (DnsRecordsResponse.Result decoded, None)
        | (_, Some decodeErr) => ([], Some decodeErr)
        end),
   after_request st (list_request zone email key)).
Proof.
  intros Hurl Hdo Hread Hclose.
  destruct (json_Unmarshal W body) as [decoded [decodeErr|]] eqn:Hdecode.
  - by apply (getDnsRecords_decode_error W zone email key st response err body
                readErr decoded decodeErr).
  - by apply (getDnsRecords_verbatim W zone email key st response err body
                readErr decoded).
Qed.

Lemma getDnsRecords_decides_on_decoding_witness :
  getDnsRecords
    (mkWorld (λ _ _, None)
       (λ _ _, (Some (Scenario.answer 403 "403 Forbidden" "refused"), None))
       Scenario.marshal (λ _, (DnsRecordsResponse.mk [], None)) Scenario.trim)
    "z1" "me@example.com" "secret" Scenario.start =
  (Ret ([], None),
   after_request Scenario.start (list_request "z1" "me@example.com" "secret")).
Proof.
  apply (getDnsRecords_decides_on_decoding
           (mkWorld (λ _ _, None)
              (λ _ _, (Some (Scenario.answer 403 "403 Forbidden" "refused"), None))
              Scenario.marshal (λ _, (DnsRecordsResponse.mk [], None)) Scenario.trim)
           "z1" "me@example.com" "secret" Scenario.start
           (Scenario.answer 403 "403 Forbidden" "refused") None None "refused");
    reflexivity.
Defined.

(** X12: when the listing has been answered and closing its body fails,
    the process exits through [log.Fatal] with the close error, also when
    the records had been decoded. *)
Theorem getDnsRecords_close_error_exits (W : World) (zone email key : string)
    (st : State) (response : Response) (err : option error) (closeErr : error) :
  NewRequest_error W http_MethodGet (CLOUDFLARE +:+ zone +:+ "/dns_records") = None →
  RoundTrip W (sent st) (list_request zone email key) = (Some response, err) →
  Close (Body response) = Some closeErr →
  getDnsRecords W zone email key st =
  (Fatal closeErr, after_request st (list_request zone email key)).
Proof.
  intros Hurl Hdo Hclose.
  unfold getDnsRecords, http_NewRequest. rewrite Hurl. unfold bind. simpl.
  change (set_Header _ _) with (list_request zone email key).
  rewrite Hdo. unfold defer, close_or_Fatal. rewrite Hclose.
  destruct (ReadAll (Body response)) as [body readErr].
  by destruct (json_Unmarshal W body) as [decoded [decodeErr|]].
Qed.

Lemma getDnsRecords_close_error_exits_witness :
  getDnsRecords Scenario.closing_fails "z1" "me@example.com" "secret" Scenario.start =
  (Fatal "close failed",
   after_request Scenario.start (list_request "z1" "me@example.com" "secret")).
Proof.
  apply (getDnsRecords_close_error_exits Scenario.closing_fails
           "z1" "me@example.com" "secret" Scenario.start
           (mkResponse "200 OK" 200
              (mkReadCloser ("done", None) (Some "close failed")))
           None "close failed");
    reflexivity.
Defined.

Section FetchCases.

Variable W : World.

Lemma keeps_getDnsRecords {X} (f : State → X) zone email key :
  off_network f → keeps f (getDnsRecords W zone email key).
Proof.
  intros Hf. unfold getDnsRecords.
  destruct (http_NewRequest W _ _ _) as [[request|] [err|]]; auto with frame.
  apply keeps_bind; [by apply keeps_client_Do |].
  intros [[response|] err]; auto with frame.
  apply keeps_defer; [apply keeps_close_or_Fatal |].
  destruct (ReadAll (Body response)) as [body readErr].
  destruct (json_Unmarshal W body) as [decoded [decodeErr|]]; auto with frame.
Qed.

Lemma getDnsRecords_sent zone email key st :
  (∃ err, getDnsRecords W zone email key st = (Ret ([], Some err), st)) ∨
  sent (getDnsRecords W zone email key st).2 =
    sent st ++ [list_request zone email key].
Proof.
  unfold getDnsRecords, http_NewRequest.
  destruct (NewRequest_error W _ _) as [err|]; [left; by exists err |].
  right. unfold bind. simpl.
  change (set_Header _ _) with (list_request zone email key).
  destruct (RoundTrip W _ _) as [[response|] err]; [| done].
  unfold defer, close_or_Fatal.
  destruct (ReadAll (Body response)) as [body readErr].
  destruct (json_Unmarshal W body) as [decoded [decodeErr|]];
    by destruct (Close (Body response)).
Qed.

End FetchCases.

(** X13: [getDnsRecords] makes one request at most, the authenticated GET
    of the zone's records: a zone id for which no request can be built is
    reported as an error with nothing sent, and otherwise exactly that
    request is sent; standard output, the slice of fetched records and the
    heap are left as they were. *)
Theorem getDnsRecords_requests (W : World) (zone email key : string) (st : State) :
  (∀ err,
     NewRequest_error W http_MethodGet (CLOUDFLARE +:+ zone +:+ "/dns_records") = Some err →
     getDnsRecords W zone email key st = (Ret ([], Some err), st)) ∧
  (NewRequest_error W http_MethodGet (CLOUDFLARE +:+ zone +:+ "/dns_records") = None →
   sent (getDnsRecords W zone email key st).2 =
     sent st ++ [mkRequest "GET" (CLOUDFLARE +:+ zone +:+ "/dns_records")
                   {[ "x-auth-email" := [email]; "x-auth-key" := [key];
                      "Content-Type" := ["application/json"] ]} None]) ∧
  stdout (getDnsRecords W zone email key st).2 = stdout st ∧
  dnsRecordsResponses (getDnsRecords W zone email key st).2 = dnsRecordsResponses st ∧
  heap (getDnsRecords W zone email key st).2 = heap st.
Proof.
  split; [| split].
  - intros err Hurl. unfold getDnsRecords, http_NewRequest. by rewrite Hurl.
  - intros Hurl.
    destruct (getDnsRecords_sent W zone email key st) as [[err Hrun]|Hsent];
      [| exact Hsent].
    unfold getDnsRecords, http_NewRequest in Hrun. rewrite Hurl in Hrun.
    exfalso. revert Hrun. unfold bind. simpl.
    destruct (RoundTrip W _ _) as [[response|] e]; [| done].
    unfold defer, close_or_Fatal.
    destruct (ReadAll (Body response)) as [body readErr].
    destruct (json_Unmarshal W body) as [decoded [decodeErr|]];
      destruct (Close (Body response)); simpl; intros Hst;
      apply (f_equal (λ r, length (sent r.2))) in Hst; simpl in Hst;
      rewrite length_app in Hst; simpl in Hst; lia.
  - repeat split; apply keeps_getDnsRecords; auto with frame.
Qed.

(** ** What a run prints *)

Lemma for_each_trace (W : World) dnsNames ipAddresses email key entries : ∀ st,
  ∃ k j,
    sent (for_each entries (loop_body W dnsNames ipAddresses email key) st).2 =
      sent st ++
      (patch_request W email key <$> take k (instructions dnsNames ipAddresses entries))
    ∧ stdout (for_each entries (loop_body W dnsNames ipAddresses email key) st).2 =
      stdout st ++
      (announcement ipAddresses
         <$> take j (filter (λ e, eligibleb dnsNames ipAddresses e = true) entries))
    ∧ (k ≤ j ≤ S k)%nat
    ∧ ((for_each entries (loop_body W dnsNames ipAddresses email key) st).1 = Ret tt →
       k = j ∧
       j = length (filter (λ e, eligibleb dnsNames ipAddresses e = true) entries)).
Proof.
  induction entries as [|e rest IH]; intros st.
  - exists 0%nat, 0%nat. simpl. rewrite !app_nil_r. repeat split; try done; lia.
  - unfold instructions. simpl for_each. unfold bind.
    destruct (eligibleb_reflect dnsNames ipAddresses e) as [Hy|Hn].
    + rewrite filter_cons_True by (by apply eligibleb_true).
      rewrite loop_body_updates by done. unfold bind.
      pose proof (updateDnsRecord_sent W (overwritten ipAddresses e) email key
                    (announced ipAddresses st e)) as Hsent.
      pose proof (keeps_updateDnsRecord W stdout (overwritten ipAddresses e)
                    email key off_network_stdout (announced ipAddresses st e))
        as Hout.
      destruct (updateDnsRecord W _ email key _) as [[[err|]|msg|msg] st1];
        simpl in Hsent, Hout;
        try (destruct Hsent as [[Hs _]|Hs];
             [exists 0%nat, 1%nat | exists 1%nat, 1%nat];
             simpl; rewrite Hs, Hout, ?app_nil_r, ?take_0;
             repeat split; (lia || done)).
      destruct Hsent as [[_ Hs]|Hs]; [done |].
      destruct (IH st1) as (k & j & Hk & Hj & Hkj & Hret).
      exists (S k), (S j). simpl.
      rewrite Hk, Hj, Hs, Hout, <- !app_assoc.
      split; [done |]. split; [done |]. split; [lia |].
      intros H. destruct (Hret H). split; lia.
    + rewrite filter_cons_False by (by rewrite eligibleb_true).
      rewrite loop_body_skips by done.
      destruct (IH (skipped st e)) as (k & j & Hk & Hj & Hkj & Hret).
      exists k, j. simpl in Hk, Hj. eauto.
Qed.

(** X14: every update is announced on standard output before it is
    attempted, in the order of the fetched records, and nothing else is
    printed: the lines printed by the loop are the announcements of the first
    [j] eligible records, the requests sent are those of the first [k], and
    [k] is [j] or one less (the last announced update was not sent); when the
    loop runs to its end, every eligible record has been announced and
    sent. *)
Theorem main_loop_announces_each_update (W : World) (dnsNames : list string)
    (ipAddresses : gmap string string) (email key : string) (st : State) :
  ∃ k j,
    sent (main_loop W dnsNames ipAddresses email key st).2 =
      sent st ++
      (patch_request W email key
         <$> take k (instructions dnsNames ipAddresses (dnsRecordsResponses st)))
    ∧ stdout (main_loop W dnsNames ipAddresses email key st).2 =
      stdout st ++
      (announcement ipAddresses
         <$> take j (filter (λ e, eligibleb dnsNames ipAddresses e = true)
                       (dnsRecordsResponses st)))
    ∧ (k ≤ j ≤ S k)%nat
    ∧ ((main_loop W dnsNames ipAddresses email key st).1 = Ret tt →
       k = j ∧
       j = length (filter (λ e, eligibleb dnsNames ipAddresses e = true)
                     (dnsRecordsResponses st))).
Proof. rewrite main_loop_for_each. apply for_each_trace. Qed.

(** ** Rules for the requests a computation sends *)

Lemma sends_only_of_keeps {T} (P : Request → Prop) (m : M T) :
  keeps sent m → sends_only P m.
Proof. intros Hm st. exists []. by rewrite Hm, app_nil_r. Qed.

Lemma sends_only_ret {T} (P : Request → Prop) (v : T) : sends_only P (ret v).
Proof. apply sends_only_of_keeps, keeps_ret. Qed.

Lemma sends_only_log_Fatal {T} (P : Request → Prop) msg :
  sends_only P (@log_Fatal T msg).
Proof. apply sends_only_of_keeps, keeps_log_Fatal. Qed.

Lemma sends_only_panic {T} (P : Request → Prop) msg : sends_only P (@panic T msg).
Proof. apply sends_only_of_keeps, keeps_panic. Qed.

Lemma sends_only_bind {T U} (P : Request → Prop) (m : M T) (k : T → M U) :
  sends_only P m → (∀ v, sends_only P (k v)) → sends_only P (bind m k).
Proof.
  intros Hm Hk st. unfold bind. destruct (Hm st) as (l1 & Hl1 & HP1).
  destruct (m st) as [[v|msg|msg] st1]; simpl in *; eauto.
  destruct (Hk v st1) as (l2 & Hl2 & HP2).
  exists (l1 ++ l2). rewrite Hl2, Hl1, <- app_assoc. split; [done |].
  by apply Forall_app.
Qed.

Lemma sends_only_weaken {T} (P Q : Request → Prop) (m : M T) :
  (∀ r, P r → Q r) → sends_only P m → sends_only Q m.
Proof.
  intros HPQ Hm st. destruct (Hm st) as (l & Hl & HP).
  exists l. split; [done |]. eapply Forall_impl; eauto.
Qed.

Lemma sends_only_one {T} (P : Request → Prop) (m : M T) request :
  P request →
  (∀ st, sent (m st).2 = sent st ∨ sent (m st).2 = sent st ++ [request]) →
  sends_only P m.
Proof.
  intros HP Hm st. destruct (Hm st) as [Hs|Hs].
  - exists []. by rewrite Hs, app_nil_r.
  - exists [request]. split; [done |]. by repeat constructor.
Qed.

Section MainRuns.

Variable W : World.

Lemma sends_only_updateDnsRecord record email key :
  sends_only (λ r, ∃ i, r = patch_request W email key i)
    (updateDnsRecord W record email key).
Proof.
  apply (sends_only_one _ _ (patch_request W email key (instruction_of record)));
    [by eexists |].
  intros st. destruct (updateDnsRecord_sent W record email key st) as [[Hs _]|Hs]; auto.
Qed.

Lemma sends_only_loop_body dnsNames ipAddresses email key e :
  sends_only (λ r, ∃ i, r = patch_request W email key i)
    (loop_body W dnsNames ipAddresses email key e).
Proof.
  intros st. destruct (eligibleb_reflect dnsNames ipAddresses e) as [Hy|Hn].
  - rewrite loop_body_updates by done.
    change (sent st) with (sent (announced ipAddresses st e)).
    apply sends_only_bind; [apply sends_only_updateDnsRecord |].
    intros [err|]; [apply sends_only_log_Fatal | apply sends_only_ret].
  - rewrite loop_body_skips by done. exists []. by rewrite app_nil_r.
Qed.

Lemma sends_only_for_each dnsNames ipAddresses email key entries :
  sends_only (λ r, ∃ i, r = patch_request W email key i)
    (for_each entries (loop_body W dnsNames ipAddresses email key)).
Proof.
  induction entries as [|e rest IH].
  - apply sends_only_ret.
  - apply (sends_only_bind _ (loop_body W dnsNames ipAddresses email key e));
      [apply sends_only_loop_body | intros _; apply IH].
Qed.

Lemma sends_only_main_loop dnsNames ipAddresses email key :
  sends_only (λ r, ∃ i, r = patch_request W email key i)
    (main_loop W dnsNames ipAddresses email key).
Proof. intros st. rewrite main_loop_for_each. apply sends_only_for_each. Qed.

Lemma sends_only_getExternalIpAddresses :
  sends_only (λ r, r = echo_request "ipv4" ∨ r = echo_request "ipv6")
    (getExternalIpAddresses W).
Proof.
  intros st. destruct (getExternalIpAddresses_sent W st) as [Hs|[Hs|Hs]].
  - exists []. by rewrite Hs, app_nil_r.
  - eexists. split; [exact Hs |]. constructor; [by left | constructor].
  - eexists. split; [exact Hs |].
    constructor; [by left |]. constructor; [by right | constructor].
Qed.

Lemma sends_only_getDnsRecords zone email key :
  sends_only (λ r, r = list_request zone email key) (getDnsRecords W zone email key).
Proof.
  apply (sends_only_one _ _ (list_request zone email key)); [done |].
  intros st. destruct (getDnsRecords_sent W zone email key st) as [[err Hrun]|Hs];
    [left; by rewrite Hrun | by right].
Qed.

(** From the pre-flight test to the loop. *)
Lemma main_reaches_loop zone email key raw st addresses st1 entries st2 :
  missing_arguments zone email key raw = false →
  getExternalIpAddresses W st = (Ret (Some addresses, None), st1) →
  getDnsRecords W zone email key st1 = (Ret (entries, None), st2) →
  main W zone email key raw st =
  main_loop W (strings_Split_comma raw) addresses email key
    (mkState (sent st2) (stdout st2) entries (heap st2)).
Proof.
  intros Hargs Hlookup Hfetch. unfold main. rewrite Hargs.
  unfold bind at 1. rewrite Hlookup. unfold bind at 1. rewrite Hfetch.
  reflexivity.
Qed.

Lemma present_arguments zone email key raw :
  zone ≠ "" → email ≠ "" → key ≠ "" → raw ≠ "" →
  missing_arguments zone email key raw = false.
Proof.
  intros Hzone Hemail Hkey Hraw. unfold missing_arguments.
  apply String.eqb_neq in Hzone, Hemail, Hkey, Hraw.
  by rewrite Hzone, Hemail, Hkey, Hraw.
Qed.

End MainRuns.

Section MainCases.

Variable W : World.

(** Once the lookup has sent its two requests and returned a map, an answered
    listing that decodes takes [main] to its loop. *)
Lemma main_after_lookups zone email key raw st addresses listing err readErr body decoded :
  missing_arguments zone email key raw = false →
  getExternalIpAddresses W st =
    (Ret (Some addresses, None),
     after_request (after_request st (echo_request "ipv4")) (echo_request "ipv6")) →
  NewRequest_error W http_MethodGet (CLOUDFLARE +:+ zone +:+ "/dns_records") = None →
  RoundTrip W ((sent st ++ [echo_request "ipv4"]) ++ [echo_request "ipv6"])
    (list_request zone email key) = (Some listing, err) →
  ReadAll (Body listing) = (body, readErr) →
  Close (Body listing) = None →
  json_Unmarshal W body = (decoded, None) →
  main W zone email key raw st =
  main_loop W (strings_Split_comma raw) addresses email key
    (fetched st zone email key (DnsRecordsResponse.Result decoded)).
Proof.
  intros Hargs Hlookup Hurl Hdo Hread Hclose Hdecode.
  pose (st1 := after_request (after_request st (echo_request "ipv4"))
                (echo_request "ipv6")).
  rewrite (main_reaches_loop W zone email key raw st addresses st1
             (DnsRecordsResponse.Result decoded)
             (after_request st1 (list_request zone email key)) Hargs Hlookup
             (getDnsRecords_verbatim W zone email key st1 listing err body readErr
                decoded Hurl Hdo Hread Hclose Hdecode)).
  unfold fetched. simpl. by rewrite <- !app_assoc.
Qed.

Lemma main_loop_sent_from dnsNames ipAddresses email key st :
  ∃ k,
    sent (main_loop W dnsNames ipAddresses email key st).2 =
      sent st ++
      (patch_request W email key
         <$> take k (instructions dnsNames ipAddresses (dnsRecordsResponses st)))
    ∧ ((main_loop W dnsNames ipAddresses email key st).1 = Ret tt →
       k = length (instructions dnsNames ipAddresses (dnsRecordsResponses st))).
Proof. rewrite main_loop_for_each. apply for_each_sent. Qed.

End MainCases.

(** ** The whole run *)

(** X15: how a run with nothing going wrong before the loop is put
    together.  With the four arguments present, both echoes answering 200
    with a readable body, and the listing answered, closed and decoded,
    [main] is its loop run on the decoded records, with the names split at
    commas and the map of the two trimmed addresses, after exactly three
    requests: the ipv4 echo, the ipv6 echo and the listing.  The requests of
    the run are then these three followed by the updates of the first [k]
    eligible records, all of them when the run returns. *)
Theorem main_success_path (W : World) (zone email key raw : string) (st : State)
    (answer4 answer6 listing : Response) (body4 body6 body : string)
    (err readErr : option error) (decoded : DnsRecordsResponse.t) :
  zone ≠ "" → email ≠ "" → key ≠ "" → raw ≠ "" →
  NewRequest_error W http_MethodGet "https://ipv4.icanhazip.com/" = None →
  NewRequest_error W http_MethodGet "https://ipv6.icanhazip.com/" = None →
  NewRequest_error W http_MethodGet (CLOUDFLARE +:+ zone +:+ "/dns_records") = None →
  RoundTrip W (sent st) (echo_request "ipv4") = (Some answer4, None) →
  StatusCode answer4 = http_StatusOK →
  ReadAll (Body answer4) = (body4, None) →
  RoundTrip W (sent st ++ [echo_request "ipv4"]) (echo_request "ipv6")
    = (Some answer6, None) →
  StatusCode answer6 = http_StatusOK →
  ReadAll (Body answer6) = (body6, None) →
  RoundTrip W ((sent st ++ [echo_request "ipv4"]) ++ [echo_request "ipv6"])
    (list_request zone email key) = (Some listing, err) →
  ReadAll (Body listing) = (body, readErr) →
  Close (Body listing) = None →
  json_Unmarshal W body = (decoded, None) →
  main W zone email key raw st =
    main_loop W (strings_Split_comma raw)
      {[ A := strings_TrimSpace W body4; AAAA := strings_TrimSpace W body6 ]}
      email key (fetched st zone email key (DnsRecordsResponse.Result decoded))
  ∧ ∃ k,
      sent (main W zone email key raw st).2 =
        sent st ++
        [echo_request "ipv4"; echo_request "ipv6"; list_request zone email key] ++
        (patch_request W email key
           <$> take k (instructions (strings_Split_comma raw)
                         {[ A := strings_TrimSpace W body4;
                            AAAA := strings_TrimSpace W body6 ]}
                         (DnsRecordsResponse.Result decoded)))
      ∧ ((main W zone email key raw st).1 = Ret tt →
         k = length (instructions (strings_Split_comma raw)
                       {[ A := strings_TrimSpace W body4;
                          AAAA := strings_TrimSpace W body6 ]}
                       (DnsRecordsResponse.Result decoded))).
Proof.
  intros Hzone Hemail Hkey Hraw Hurl4 Hurl6 Hurl Hdo4 Hcode4 Hread4 Hdo6 Hcode6
    Hread6 Hdo Hread Hclose Hdecode.
  assert (Hmain :
    main W zone email key raw st =
    main_loop W (strings_Split_comma raw)
      {[ A := strings_TrimSpace W body4; AAAA := strings_TrimSpace W body6 ]}
      email key (fetched st zone email key (DnsRecordsResponse.Result decoded))).
  { apply (main_after_lookups W zone email key raw st _ listing err readErr body
             decoded); try done.
    - by apply present_arguments.
    - by apply (getExternalIpAddresses_both_OK W st answer4 answer6 body4 body6). }
  split; [exact Hmain |]. rewrite Hmain.
  destruct (main_loop_sent_from W (strings_Split_comma raw)
              {[ A := strings_TrimSpace W body4; AAAA := strings_TrimSpace W body6 ]}
              email key (fetched st zone email key (DnsRecordsResponse.Result decoded)))
    as (k & Hk & Hlen).
  exists k. split; [| exact Hlen]. rewrite Hk. simpl. by rewrite <- !app_assoc.
Qed.

Lemma main_success_path_witness :
  main (Scenario.serving 200) "z1" "me@example.com" "secret" "home.example.com"
    Scenario.start =
  main_loop (Scenario.serving 200) ["home.example.com"]
    {[ A := "5.6.7.8"; AAAA := "2001:db8::1" ]} "me@example.com" "secret"
    (fetched Scenario.start "z1" "me@example.com" "secret"
       [Scenario.home; Scenario.other; Scenario.home6]).
Proof.
  apply (main_success_path (Scenario.serving 200)
           "z1" "me@example.com" "secret" "home.example.com" Scenario.start
           (Scenario.answer 200 "200 OK" ("5.6.7.8" +:+ LF))
           (Scenario.answer 200 "" ("2001:db8::1" +:+ LF))
           (Scenario.answer 200 "200 OK" "listing")
           ("5.6.7.8" +:+ LF) ("2001:db8::1" +:+ LF) "listing" None None
           (DnsRecordsResponse.mk [Scenario.home; Scenario.other; Scenario.home6]));
    (reflexivity || discriminate).
Defined.

(** The requests of that run: three lookups, then one update for each of
    the two records named [home.example.com]. *)
Example main_success_requests :
  sent (main (Scenario.serving 200) "z1" "me@example.com" "secret"
          "home.example.com" Scenario.start).2 =
  [ echo_request "ipv4"; echo_request "ipv6";
    list_request "z1" "me@example.com" "secret";
    patch_request (Scenario.serving 200) "me@example.com" "secret"
      (mkUpdateInstruction "r1" "z1" "5.6.7.8");
    patch_request (Scenario.serving 200) "me@example.com" "secret"
      (mkUpdateInstruction "r6" "z1" "2001:db8::1") ].
Proof. vm_compute. reflexivity. Qed.

(** X16: what a run does after an ipv6 echo that answered with a status
    other than 200.  The run goes on: [main] is its loop with the empty
    string as the AAAA address, so that every fetched AAAA record that is
    named by the names flag and has a non-empty content is eligible, with
    the empty string as its new content. *)
Theorem main_blanks_AAAA_after_refused_echo (W : World) (zone email key raw : string)
    (st : State) (answer4 answer6 listing : Response) (body4 body : string)
    (err readErr : option error) (decoded : DnsRecordsResponse.t) :
  zone ≠ "" → email ≠ "" → key ≠ "" → raw ≠ "" →
  NewRequest_error W http_MethodGet "https://ipv4.icanhazip.com/" = None →
  NewRequest_error W http_MethodGet "https://ipv6.icanhazip.com/" = None →
  NewRequest_error W http_MethodGet (CLOUDFLARE +:+ zone +:+ "/dns_records") = None →
  RoundTrip W (sent st) (echo_request "ipv4") = (Some answer4, None) →
  StatusCode answer4 = http_StatusOK →
  ReadAll (Body answer4) = (body4, None) →
  RoundTrip W (sent st ++ [echo_request "ipv4"]) (echo_request "ipv6")
    = (Some answer6, None) →
  StatusCode answer6 ≠ http_StatusOK →
  RoundTrip W ((sent st ++ [echo_request "ipv4"]) ++ [echo_request "ipv6"])
    (list_request zone email key) = (Some listing, err) →
  ReadAll (Body listing) = (body, readErr) →
  Close (Body listing) = None →
  json_Unmarshal W body = (decoded, None) →
  main W zone email key raw st =
    main_loop W (strings_Split_comma raw)
      {[ A := strings_TrimSpace W body4; AAAA := "" ]}
      email key (fetched st zone email key (DnsRecordsResponse.Result decoded))
  ∧ ∀ e : Entry,
      DnsRecordResponseEntry.Type_ e = AAAA →
      DnsRecordResponseEntry.Name e ∈ strings_Split_comma raw →
      DnsRecordResponseEntry.Content e ≠ "" →
      eligible (strings_Split_comma raw)
        {[ A := strings_TrimSpace W body4; AAAA := "" ]} e ∧
      instruction_of (overwritten {[ A := strings_TrimSpace W body4; AAAA := "" ]} e)
        = mkUpdateInstruction (DnsRecordResponseEntry.Id e)
            (DnsRecordResponseEntry.ZoneId e) "".
Proof.
  intros Hzone Hemail Hkey Hraw Hurl4 Hurl6 Hurl Hdo4 Hcode4 Hread4 Hdo6 Hcode6
    Hdo Hread Hclose Hdecode.
  split.
  - apply (main_after_lookups W zone email key raw st _ listing err readErr body
             decoded); try done.
    + by apply present_arguments.
    + unfold getExternalIpAddresses, bind.
      rewrite (getExternalIpAddress_OK W "ipv4" st answer4 body4) by done.
      by rewrite (getExternalIpAddress_status_not_OK W "ipv6" _ answer6).
  - intros e Htype Hname Hcontent.
    assert (Hentry : ({[ A := strings_TrimSpace W body4; AAAA := "" ]}
                        : gmap string string)
                       !! DnsRecordResponseEntry.Type_ e = Some "").
    { rewrite Htype. rewrite lookup_insert_ne by done. apply lookup_singleton_eq. }
    split.
    + split; [done |]. by exists "".
    + unfold instruction_of, overwritten, map_index. simpl. by rewrite Hentry.
Qed.

Lemma main_blanks_AAAA_after_refused_echo_witness :
  sent (main (Scenario.serving 500) "z1" "me@example.com" "secret"
          "home.example.com" Scenario.start).2 =
  [ echo_request "ipv4"; echo_request "ipv6";
    list_request "z1" "me@example.com" "secret";
    patch_request (Scenario.serving 500) "me@example.com" "secret"
      (mkUpdateInstruction "r1" "z1" "5.6.7.8");
    patch_request (Scenario.serving 500) "me@example.com" "secret"
      (mkUpdateInstruction "r6" "z1" "") ].
Proof.
  destruct (main_blanks_AAAA_after_refused_echo (Scenario.serving 500)
              "z1" "me@example.com" "secret" "home.example.com" Scenario.start
              (Scenario.answer 200 "200 OK" ("5.6.7.8" +:+ LF))
              (Scenario.answer 500 "" ("2001:db8::1" +:+ LF))
              (Scenario.answer 200 "200 OK" "listing")
              ("5.6.7.8" +:+ LF) "listing" None None
              (DnsRecordsResponse.mk [Scenario.home; Scenario.other; Scenario.home6]))
    as [Hmain _]; [> (reflexivity || discriminate) .. |].
  rewrite Hmain. vm_compute. reflexivity.
Defined.

Section BeforeTheLoop.

Variable W : World.

(** A lookup that returns a nil error has sent both requests and returns
    the two-entry map. *)
Lemma getExternalIpAddresses_map_sent st m st1 :
  getExternalIpAddresses W st = (Ret (m, None), st1) →
  sent st1 = sent st ++ [echo_request "ipv4"; echo_request "ipv6"] ∧
  ∃ addresses, m = Some addresses ∧ dom addresses = {[ A; AAAA ]}.
Proof.
  intros Hrun. split.
  - revert Hrun. unfold getExternalIpAddresses, bind.
    destruct (getExternalIpAddress_sent W "ipv4" st) as [[err H4]|H4];
      [by rewrite H4 |].
    destruct (getExternalIpAddress W "ipv4" st) as [[[ipv4 [e4|]]|msg|msg] st0];
      simpl in H4; try done.
    destruct (getExternalIpAddress_sent W "ipv6" st0) as [[err H6]|H6];
      [by rewrite H6 |].
    destruct (getExternalIpAddress W "ipv6" st0) as [[[ipv6 [e6|]]|msg|msg] st2];
      simpl in H6; try done.
    intros [= _ <-]. by rewrite H6, H4, <- app_assoc.
  - destruct (getExternalIpAddresses_returns W st m None st1 Hrun)
      as [(ipv4 & ipv6 & -> & _)|[_ [e [=]]]].
    eexists. split; [done |]. by rewrite dom_insert_L, dom_singleton_L.
Qed.

(** A fetch that returns a nil error has sent its request. *)
Lemma getDnsRecords_records_sent zone email key st entries st1 :
  getDnsRecords W zone email key st = (Ret (entries, None), st1) →
  sent st1 = sent st ++ [list_request zone email key].
Proof.
  intros Hrun.
  destruct (getDnsRecords_sent W zone email key st) as [[err Hrefused]|Hsent].
  - rewrite Hrun in Hrefused. discriminate.
  - by rewrite Hrun in Hsent.
Qed.

End BeforeTheLoop.


(** X18: every request a run makes is one of four: the ipv4 echo, the ipv6
    echo, the listing of the configured zone, or an update of one record
    with the configured credentials.  In particular the program only ever
    sends GET and PATCH requests, and the echo service never receives the
    credentials. *)
Theorem main_sends_only (W : World) (zone email key raw : string) (st : State) :
  ∃ requests,
    sent (main W zone email key raw st).2 = sent st ++ requests ∧
    Forall (request_of_main W zone email key) requests ∧
    Forall (λ r, (Method r = "GET" ∨ Method r = "PATCH") ∧
                 (Header r = ∅ ∨
                  (Header r = auth_Header email key ∧
                   ∃ path, URL r = CLOUDFLARE +:+ path))) requests.
Proof.
  assert (Hmain : sends_only (request_of_main W zone email key)
                    (main W zone email key raw)).
  { unfold main. destruct (missing_arguments zone email key raw);
      [apply sends_only_log_Fatal |].
    apply sends_only_bind.
    { eapply sends_only_weaken; [| apply sends_only_getExternalIpAddresses].
      intros r [->| ->]; [by left | right; by left]. }
    intros [m [err|]]; [apply sends_only_log_Fatal |].
    apply sends_only_bind.
    { eapply sends_only_weaken; [| apply sends_only_getDnsRecords].
      intros r ->. right; right; by left. }
    intros [entries [err|]]; [apply sends_only_log_Fatal |].
    apply sends_only_bind.
    { by apply sends_only_of_keeps. }
    intros _. eapply sends_only_weaken; [| apply sends_only_main_loop].
    intros r Hr. right; right; by right. }
  destruct (Hmain st) as (requests & Hsent & Hkind).
  exists requests. split; [done |]. split; [done |].
  eapply Forall_impl; [exact Hkind |].
  intros r [->|[->|[->|[i ->]]]]; simpl.
  - split; [by left | by left].
  - split; [by left | by left].
  - split; [by left |]. right. split; [done |]. by eexists.
  - split; [by right |]. right. split; [done |]. by eexists.
Qed.

(** ** The fields a run reads *)

Section FieldsRead.

Variable W : World.

Lemma updateDnsRecord_with_slice record email key st entries :
  updateDnsRecord W record email key (with_slice st entries) =
  ((updateDnsRecord W record email key st).1,
   with_slice (updateDnsRecord W record email key st).2 entries).
Proof.
  unfold updateDnsRecord, http_NewRequest.
  destruct (NewRequest_error W _ _) as [err|]; [done |].
  unfold bind, client_Do. simpl.
  destruct (RoundTrip W _ _) as [[response|] [err|]]; try done.
  unfold defer, close_or_Fatal.
  destruct (ReadAll (Body response)) as [bodyBytes [err|]];
    [| destruct (negb _)]; by destruct (Close (Body response)).
Qed.

Lemma loop_body_with_slice dnsNames ipAddresses email key e st entries :
  loop_body W dnsNames ipAddresses email key e (with_slice st entries) =
  ((loop_body W dnsNames ipAddresses email key e st).1,
   with_slice (loop_body W dnsNames ipAddresses email key e st).2 entries).
Proof.
  destruct (eligibleb_reflect dnsNames ipAddresses e) as [Hy|Hn].
  - rewrite !loop_body_updates by done. unfold bind.
    change (announced ipAddresses (with_slice st entries) e)
      with (with_slice (announced ipAddresses st e) entries).
    rewrite updateDnsRecord_with_slice.
    by destruct (updateDnsRecord W _ email key (announced ipAddresses st e))
      as [[[err|]|msg|msg] st1].
  - by rewrite !loop_body_skips.
Qed.

Lemma loop_body_projection dnsNames ipAddresses email key e e' st :
  projection e = projection e' →
  loop_body W dnsNames ipAddresses email key e st =
  loop_body W dnsNames ipAddresses email key e' st.
Proof.
  intros Hsame. unfold loop_body, CreateDnsRecordFrom.
  change (DnsRecord.mk _ _ _ _ (DnsRecordResponseEntry.Content e))
    with (projection e).
  change (DnsRecord.mk _ _ _ _ (DnsRecordResponseEntry.Content e'))
    with (projection e').
  by rewrite Hsame.
Qed.

Lemma for_each_projection dnsNames ipAddresses email key entries : ∀ entries' st slice,
  projection <$> entries = projection <$> entries' →
  for_each entries' (loop_body W dnsNames ipAddresses email key) (with_slice st slice) =
  ((for_each entries (loop_body W dnsNames ipAddresses email key) st).1,
   with_slice (for_each entries (loop_body W dnsNames ipAddresses email key) st).2
     slice).
Proof.
  induction entries as [|e rest IH]; intros [|e' rest'] st slice Hsame;
    try discriminate; [done |].
  assert (He : projection e = projection e').
  { apply (f_equal (λ l, l !! 0%nat)) in Hsame. by apply (inj Some). }
  assert (Hrest : projection <$> rest = projection <$> rest').
  { by apply (f_equal tail) in Hsame. }
  simpl. unfold bind.
  rewrite <- (loop_body_projection _ _ _ _ e e') by done.
  rewrite loop_body_with_slice.
  destruct (loop_body W dnsNames ipAddresses email key e st) as [[v|msg|msg] st1];
    simpl; [| done | done].
  by apply IH.
Qed.

End FieldsRead.

(** X19: a run reads five fields of a fetched record and no other: on two
    fetched sequences whose records agree, one by one, on id, zone id, type,
    name and content (whatever their zone name, proxy flags, ttl, lock,
    metadata and dates), the loop ends the same way, sends the same
    requests, prints the same lines and builds the same heap. *)
Theorem main_loop_reads_five_fields (W : World) (dnsNames : list string)
    (ipAddresses : gmap string string) (email key : string) (st : State)
    (entries' : list Entry) :
  projection <$> dnsRecordsResponses st = projection <$> entries' →
  (main_loop W dnsNames ipAddresses email key (with_slice st entries')).1 =
    (main_loop W dnsNames ipAddresses email key st).1 ∧
  sent (main_loop W dnsNames ipAddresses email key (with_slice st entries')).2 =
    sent (main_loop W dnsNames ipAddresses email key st).2 ∧
  stdout (main_loop W dnsNames ipAddresses email key (with_slice st entries')).2 =
    stdout (main_loop W dnsNames ipAddresses email key st).2 ∧
  heap (main_loop W dnsNames ipAddresses email key (with_slice st entries')).2 =
    heap (main_loop W dnsNames ipAddresses email key st).2.
Proof.
  intros Hsame. rewrite !main_loop_for_each. cbn [dnsRecordsResponses with_slice].
  change (mkState (sent st) (stdout st) entries' (heap st))
    with (with_slice st entries').
  by rewrite (for_each_projection W dnsNames ipAddresses email key
                (dnsRecordsResponses st) entries' st entries' Hsame).
Qed.

Lemma main_loop_reads_five_fields_witness :
  sent (main_loop Scenario.accepting ["home.example.com"] Scenario.addresses
          "me@example.com" "secret"
          (with_slice (mkState [] [] [Scenario.home] ∅)
             [DnsRecordResponseEntry.mk "r1" "z1" "example.org" "home.example.com"
                "A" "1.2.3.4" false true 300%Z true
                (Meta.mk true true true "secondary") 7%Z 9%Z])).2 =
  sent (main_loop Scenario.accepting ["home.example.com"] Scenario.addresses
          "me@example.com" "secret" (mkState [] [] [Scenario.home] ∅)).2.
Proof.
  apply (main_loop_reads_five_fields Scenario.accepting ["home.example.com"]
           Scenario.addresses "me@example.com" "secret"
           (mkState [] [] [Scenario.home] ∅)
           [DnsRecordResponseEntry.mk "r1" "z1" "example.org" "home.example.com"
              "A" "1.2.3.4" false true 300%Z true
              (Meta.mk true true true "secondary") 7%Z 9%Z]).
  reflexivity.
Defined.

(** ** The loop over a fetched sequence *)

Section Sequence.

Variable W : World.

(** [updateDnsRecord] reads the state through the requests sent only. *)
Lemma updateDnsRecord_on_network record email key st st' :
  sent st = sent st' →
  (updateDnsRecord W record email key st).1 = (updateDnsRecord W record email key st').1 ∧
  sent (updateDnsRecord W record email key st).2 =
    sent (updateDnsRecord W record email key st').2.
Proof.
  intros Hsent. unfold updateDnsRecord, http_NewRequest.
  destruct (NewRequest_error W _ _) as [err|]; [done |].
  unfold bind, client_Do. simpl. rewrite Hsent.
  destruct (RoundTrip W _ _) as [[response|] [err|]]; try done.
  unfold defer, close_or_Fatal.
  destruct (ReadAll (Body response)) as [bodyBytes [err|]];
    [| destruct (negb _)]; by destruct (Close (Body response)).
Qed.

(** Running the loop body over a list ends as applying the updates of its
    eligible records in order does, and sends the same requests. *)
Lemma for_each_applies_in_order dnsNames ipAddresses email key entries : ∀ st st',
  sent st = sent st' →
  (for_each entries (loop_body W dnsNames ipAddresses email key) st).1 =
    (apply_in_order W email key (selected dnsNames ipAddresses entries) st').1 ∧
  sent (for_each entries (loop_body W dnsNames ipAddresses email key) st).2 =
    sent (apply_in_order W email key (selected dnsNames ipAddresses entries) st').2.
Proof.
  induction entries as [|e rest IH]; intros st st' Hsent; [done |].
  unfold selected. simpl for_each.
  destruct (eligibleb_reflect dnsNames ipAddresses e) as [Hy|Hn].
  - rewrite filter_cons_True by (by apply eligibleb_true). rewrite fmap_cons.
    simpl apply_in_order. unfold bind.
    rewrite loop_body_updates by done. unfold bind.
    destruct (updateDnsRecord_on_network (overwritten ipAddresses e) email key
                (announced ipAddresses st e) st' Hsent) as [Hout Hnet].
    destruct (updateDnsRecord W _ email key (announced ipAddresses st e))
      as [[[err|]|msg|msg] st1];
      destruct (updateDnsRecord W _ email key st') as [[[err'|]|msg'|msg'] st1'];
      simpl in Hout, Hnet; try discriminate; try (injection Hout as ->; done).
    by apply IH.
  - rewrite filter_cons_False by (by rewrite eligibleb_true).
    unfold bind. rewrite loop_body_skips by done. by apply IH.
Qed.

(** When every update is accepted, applying them in order returns and
    sends one request for each. *)
Lemma apply_in_order_all_accepted email key records :
  (∀ record st, (updateDnsRecord W record email key st).1 = Ret None) →
  ∀ st,
    (apply_in_order W email key records st).1 = Ret tt ∧
    sent (apply_in_order W email key records st).2 =
      sent st ++ (patch_request W email key ∘ instruction_of <$> records).
Proof.
  intros Hok. induction records as [|record rest IH]; intros st; simpl.
  - by rewrite app_nil_r.
  - unfold bind. pose proof (Hok record st) as Hrun.
    destruct (updateDnsRecord_sent W record email key st) as [[_ Hno]|Hsent];
      [done |].
    destruct (updateDnsRecord W record email key st) as [[[err|]|msg|msg] st1];
      simpl in Hrun, Hsent; try discriminate.
    destruct (IH st1) as [Hret Hrest]. split; [done |].
    by rewrite Hrest, Hsent, <- app_assoc.
Qed.

(** The iterations that follow position [length before] are the loop body
    run over the rest of the slice. *)
Lemma range_from_rest dnsNames ipAddresses email key before e after st :
  dnsRecordsResponses st = before ++ e :: after →
  range_from (length after) (S (length before))
    (loop_body W dnsNames ipAddresses email key) st =
  for_each after (loop_body W dnsNames ipAddresses email key) st.
Proof.
  intros Hslice.
  rewrite range_from_for_each;
    [| apply loop_body_keeps_slice
     | rewrite Hslice, length_app; simpl; lia].
  rewrite Hslice.
  replace (drop (S (length before)) (before ++ e :: after)) with after.
  - by rewrite firstn_all.
  - change (e :: after) with ([e] ++ after). rewrite app_assoc.
    rewrite drop_app_length'; [done |]. rewrite length_app. simpl. lia.
Qed.

Lemma range_from_start dnsNames ipAddresses email key before rest st :
  dnsRecordsResponses st = before ++ rest →
  range_from (length before) 0 (loop_body W dnsNames ipAddresses email key) st =
  for_each before (loop_body W dnsNames ipAddresses email key) st.
Proof.
  intros Hslice.
  rewrite range_from_for_each;
    [| apply loop_body_keeps_slice
     | rewrite Hslice, length_app; simpl; lia].
  by rewrite Hslice, drop_0, take_app_length.
Qed.

End Sequence.

(** C1, counterexample: the fetched sequence is [home; home6], both
    eligible, and the provider refuses every update.  The run ends at the
    refused update of the first record: the second is eligible and the only
    request sent is the one for the first. *)
Lemma eligible_record_without_instruction :
  eligible ["home.example.com"] Scenario.addresses Scenario.home6 ∧
  main_loop Scenario.forbidden ["home.example.com"] Scenario.addresses
    "me@example.com" "secret"
    (mkState [] [] [Scenario.home; Scenario.home6] ∅) =
  (Fatal ("Could not update DNS record "
            +:+ Scenario.marshal {[ "content" := "5.6.7.8" ]} +:+ LF
            +:+ "Response status: 403 Forbidden" +:+ LF +:+ "forbidden"),
   mkState
     [patch_request Scenario.forbidden "me@example.com" "secret"
        (mkUpdateInstruction "r1" "z1" "5.6.7.8")]
     ["A home.example.com 1.2.3.4 -> 5.6.7.8" +:+ LF]
     [Scenario.home; Scenario.home6]
     {[ 1%positive := DnsRecord.mk "r1" "z1" "A" "home.example.com" "5.6.7.8" ]}).
Proof.
  split.
  - split; [left |]. exists "2001:db8::1". split; [reflexivity | discriminate].
  - vm_compute. reflexivity.
Qed.

(** C1, amended: for every fetched sequence and every record in it, the
    loop emits an update instruction for the record exactly when the run
    reaches it and it is eligible.  The run reaches the record exactly when
    applying, in order, the updates of the eligible records before it
    returns, that is when none of them failed.  When the record is reached
    and eligible, the loop goes on as the call of [updateDnsRecord] on the
    record with the source id and zone id and the map entry of its type as
    content, followed by the rest of the loop if the call returns nil and by
    [log.Fatal] otherwise; when it is reached and not eligible, the loop goes
    on with the rest and sends nothing for it; when it is not reached, the
    run has ended before it. *)
Theorem main_loop_emits_iff_reached_and_eligible (W : World)
    (dnsNames : list string) (ipAddresses : gmap string string)
    (email key : string) (st : State) (before after : list Entry) (e : Entry) :
  dnsRecordsResponses st = before ++ e :: after →
  (range_from (length before) 0 (loop_body W dnsNames ipAddresses email key) st).1
    = (apply_in_order W email key (selected dnsNames ipAddresses before) st).1
  ∧
  ((∃ st1,
      range_from (length before) 0 (loop_body W dnsNames ipAddresses email key) st
        = (Ret tt, st1) ∧
      ((eligible dnsNames ipAddresses e ∧
        ∃ a, ipAddresses !! DnsRecordResponseEntry.Type_ e = Some a ∧
          main_loop W dnsNames ipAddresses email key st =
          (do err <- updateDnsRecord W
                       (DnsRecord.mk (DnsRecordResponseEntry.Id e)
                          (DnsRecordResponseEntry.ZoneId e)
                          (DnsRecordResponseEntry.Type_ e)
                          (DnsRecordResponseEntry.Name e) a) email key;
           match err with
           | Some err => log_Fatal err
           | None =>
               range_from (length after) (S (length before))
                 (loop_body W dnsNames ipAddresses email key)
           end) (announced ipAddresses st1 e))
       ∨
       (¬ eligible dnsNames ipAddresses e ∧
        main_loop W dnsNames ipAddresses email key st =
        range_from (length after) (S (length before))
          (loop_body W dnsNames ipAddresses email key) (skipped st1 e))))
   ∨
   ((range_from (length before) 0
       (loop_body W dnsNames ipAddresses email key) st).1 ≠ Ret tt ∧
    main_loop W dnsNames ipAddresses email key st =
    range_from (length before) 0 (loop_body W dnsNames ipAddresses email key) st)).
Proof.
  intros Hslice.
  rewrite (range_from_start W dnsNames ipAddresses email key before (e :: after) st
             Hslice).
  split.
  { by apply for_each_applies_in_order. }
  assert (Hmain :
    main_loop W dnsNames ipAddresses email key st =
    (do _ <- for_each before (loop_body W dnsNames ipAddresses email key);
     for_each (e :: after) (loop_body W dnsNames ipAddresses email key)) st).
  { by rewrite main_loop_for_each, Hslice, for_each_app. }
  unfold bind in Hmain.
  pose proof (keeps_for_each dnsRecordsResponses before
                (loop_body W dnsNames ipAddresses email key)
                (loop_body_keeps_slice W dnsNames ipAddresses email key) st)
    as Hkeep.
  destruct (for_each before (loop_body W dnsNames ipAddresses email key) st)
    as [[[]|msg|msg] st1]; simpl in Hkeep; [| by right | by right].
  left. exists st1. split; [done |]. rewrite Hslice in Hkeep.
  rewrite Hmain. clear Hmain. simpl for_each.
  destruct (eligibleb_reflect dnsNames ipAddresses e) as [Hy|Hn].
  - left. split; [done |]. pose proof Hy as [_ (a & Ha & _)].
    exists a. split; [done |].
    unfold bind at 1. rewrite loop_body_updates by done. unfold bind.
    replace (overwritten ipAddresses e)
      with (DnsRecord.mk (DnsRecordResponseEntry.Id e)
              (DnsRecordResponseEntry.ZoneId e) (DnsRecordResponseEntry.Type_ e)
              (DnsRecordResponseEntry.Name e) a)
      by (unfold overwritten, map_index; by rewrite Ha).
    pose proof (keeps_updateDnsRecord W dnsRecordsResponses
                  (DnsRecord.mk (DnsRecordResponseEntry.Id e)
                     (DnsRecordResponseEntry.ZoneId e)
                     (DnsRecordResponseEntry.Type_ e)
                     (DnsRecordResponseEntry.Name e) a) email key
                  off_network_dnsRecordsResponses (announced ipAddresses st1 e))
      as Hupd.
    destruct (updateDnsRecord W _ email key (announced ipAddresses st1 e))
      as [[[err|]|msg|msg] st2]; simpl in Hupd; try done.
    symmetry. apply (range_from_rest W dnsNames ipAddresses email key before e after).
    by rewrite Hupd.
  - right. split; [done |].
    unfold bind. rewrite loop_body_skips by done.
    symmetry. by apply (range_from_rest W dnsNames ipAddresses email key before e after).
Qed.

Lemma main_loop_emits_iff_reached_and_eligible_witness :
  (range_from 2 0
     (loop_body Scenario.accepting ["home.example.com"] Scenario.addresses
        "me@example.com" "secret")
     (mkState [] [] [Scenario.other; Scenario.home; Scenario.home6] ∅)).1
  = (apply_in_order Scenario.accepting "me@example.com" "secret"
       (selected ["home.example.com"] Scenario.addresses
          [Scenario.other; Scenario.home])
       (mkState [] [] [Scenario.other; Scenario.home; Scenario.home6] ∅)).1.
Proof.
  apply (main_loop_emits_iff_reached_and_eligible Scenario.accepting
           ["home.example.com"] Scenario.addresses "me@example.com" "secret"
           (mkState [] [] [Scenario.other; Scenario.home; Scenario.home6] ∅)
           [Scenario.other; Scenario.home] [] Scenario.home6).
  reflexivity.
Defined.

(** C7, counterexample: the fetched sequence holds the same eligible
    record twice and the provider refuses every update.  The two records
    have the same instruction, and one request is sent, not two. *)
Lemma duplicate_record_single_instruction :
  instructions ["home.example.com"] Scenario.addresses
    [Scenario.home; Scenario.home] =
    [mkUpdateInstruction "r1" "z1" "5.6.7.8";
     mkUpdateInstruction "r1" "z1" "5.6.7.8"] ∧
  sent (main_loop Scenario.forbidden ["home.example.com"] Scenario.addresses
          "me@example.com" "secret"
          (mkState [] [] [Scenario.home; Scenario.home] ∅)).2 =
    [patch_request Scenario.forbidden "me@example.com" "secret"
       (mkUpdateInstruction "r1" "z1" "5.6.7.8")].
Proof. split; vm_compute; reflexivity. Qed.

(** C7, amended: the updates of a run are those of the eligible records,
    in the order of the fetched sequence, nothing reordered or merged,
    applied one after the other until one fails: the loop ends as applying
    [updateDnsRecord] in turn to the selected records does, and sends the
    same requests.  So when the loop returns, and in particular when every
    update is accepted, the requests sent are those of all the instructions
    in order, and an eligible record that occurs twice has its instruction
    twice, each at its own place; a failed update ends the run and the
    instructions after it are not emitted. *)
Theorem main_loop_applies_updates_in_order (W : World) (dnsNames : list string)
    (ipAddresses : gmap string string) (email key : string) (st : State) :
  (main_loop W dnsNames ipAddresses email key st).1 =
    (apply_in_order W email key
       (selected dnsNames ipAddresses (dnsRecordsResponses st)) st).1
  ∧ sent (main_loop W dnsNames ipAddresses email key st).2 =
    sent (apply_in_order W email key
            (selected dnsNames ipAddresses (dnsRecordsResponses st)) st).2
  ∧ ((main_loop W dnsNames ipAddresses email key st).1 = Ret tt →
     sent (main_loop W dnsNames ipAddresses email key st).2 =
       sent st ++
       (patch_request W email key
          <$> instructions dnsNames ipAddresses (dnsRecordsResponses st)))
  ∧ ((∀ record s, (updateDnsRecord W record email key s).1 = Ret None) →
     (main_loop W dnsNames ipAddresses email key st).1 = Ret tt ∧
     sent (main_loop W dnsNames ipAddresses email key st).2 =
       sent st ++
       (patch_request W email key
          <$> instructions dnsNames ipAddresses (dnsRecordsResponses st)))
  ∧ (∀ (e : Entry) (before between after : list Entry),
       eligible dnsNames ipAddresses e →
       instructions dnsNames ipAddresses (before ++ e :: between ++ e :: after) =
         instructions dnsNames ipAddresses before ++
         instruction_of (overwritten ipAddresses e) ::
         instructions dnsNames ipAddresses between ++
         instruction_of (overwritten ipAddresses e) ::
         instructions dnsNames ipAddresses after).
Proof.
  destruct (for_each_applies_in_order W dnsNames ipAddresses email key
              (dnsRecordsResponses st) st st eq_refl) as [Hout Hnet].
  rewrite main_loop_for_each.
  split; [exact Hout |]. split; [exact Hnet |]. split; [| split].
  - intros Hret.
    destruct (for_each_sent W dnsNames ipAddresses email key
                (dnsRecordsResponses st) st) as (k & Hk & Hlen).
    rewrite Hk, (Hlen Hret). by rewrite firstn_all.
  - intros Hok.
    destruct (apply_in_order_all_accepted W email key
                (selected dnsNames ipAddresses (dnsRecordsResponses st)) Hok st)
      as [Hret Hall].
    rewrite Hout, Hnet, Hret, Hall. split; [done |].
    unfold selected, instructions. by rewrite <- !list_fmap_compose.
  - intros e before between after He.
    rewrite instructions_app, instructions_cons_eligible by done.
    by rewrite instructions_app, instructions_cons_eligible by done.
Qed.

Lemma main_loop_applies_updates_in_order_witness :
  (main_loop Scenario.accepting ["home.example.com"] Scenario.addresses
     "me@example.com" "secret"
     (mkState [] [] [Scenario.home; Scenario.other; Scenario.home] ∅)).1 = Ret tt ∧
  sent (main_loop Scenario.accepting ["home.example.com"] Scenario.addresses
          "me@example.com" "secret"
          (mkState [] [] [Scenario.home; Scenario.other; Scenario.home] ∅)).2 =
    [patch_request Scenario.accepting "me@example.com" "secret"
       (mkUpdateInstruction "r1" "z1" "5.6.7.8");
     patch_request Scenario.accepting "me@example.com" "secret"
       (mkUpdateInstruction "r1" "z1" "5.6.7.8")].
Proof.
  destruct (main_loop_applies_updates_in_order Scenario.accepting
              ["home.example.com"] Scenario.addresses "me@example.com" "secret"
              (mkState [] [] [Scenario.home; Scenario.other; Scenario.home] ∅))
    as (_ & _ & _ & Haccepted & _).
  apply Haccepted. intros record s. reflexivity.
Defined.
